(** * E-commerce backend: catalog listing, product lookup, reviews and seed

    A shallow embedding of [main.py] and [schemas.py].  The MongoDB
    collections are lists of documents kept in store order; the handlers
    are functions over the database value, and a handler that writes
    returns the database it leaves behind, also when it raises after a
    write.  Python floats, the regular-expression engine of the store and
    the token library are interfaces ([FloatOps], [External]) with the
    laws the handlers rely on. *)

From Stdlib Require Import List String Ascii ZArith QArith Bool Lia Arith.
From Stdlib Require Import Sorting.Sorted Sorting.Permutation.
Import ListNotations.
Open Scope string_scope.
Open Scope Z_scope.
Open Scope list_scope.

Set Implicit Arguments.

(** ** Strings *)

Module Str.

Definition is_upper (c : ascii) : bool :=
  let n := nat_of_ascii c in (Nat.leb 65 n && Nat.leb n 90)%bool.

Definition lower_ascii (c : ascii) : ascii :=
  if is_upper c then ascii_of_nat (nat_of_ascii c + 32) else c.

Fixpoint lower (s : string) : string :=
  match s with
  | EmptyString => EmptyString
  | String c s' => String (lower_ascii c) (lower s')
  end.

Definition is_hex (c : ascii) : bool :=
  let n := nat_of_ascii c in
  ((Nat.leb 48 n && Nat.leb n 57) || (Nat.leb 97 n && Nat.leb n 102)
   || (Nat.leb 65 n && Nat.leb n 70))%bool.

Fixpoint all (f : ascii -> bool) (s : string) : bool :=
  match s with
  | EmptyString => true
  | String c s' => (f c && all f s')%bool
  end.

(** Python truthiness of a [str]: the empty string is falsy. *)
Definition truthy (s : string) : bool :=
  match s with EmptyString => false | _ => true end.

(** [p] is a prefix of [s] up to ASCII case. *)
Fixpoint ci_prefix (p s : string) : bool :=
  match p, s with
  | EmptyString, _ => true
  | String a p', String b s' =>
      (Ascii.eqb (lower_ascii a) (lower_ascii b) && ci_prefix p' s')%bool
  | String _ _, EmptyString => false
  end.

(** [p] occurs somewhere in [s] up to ASCII case. *)
Fixpoint ci_contains (p s : string) : bool :=
  (ci_prefix p s ||
   match s with
   | EmptyString => false
   | String _ s' => ci_contains p s'
   end)%bool.

(** The characters a regular expression reads as operators. *)
Definition metachars : list ascii :=
  list_ascii_of_string "\^$.|?*+()[]{}".

Definition is_meta (c : ascii) : bool :=
  existsb (Ascii.eqb c) metachars.

(** A pattern without operators: it stands for itself. *)
Definition plain (p : string) : bool := all (fun c => negb (is_meta c)) p.

End Str.

(** ** Python floats

    [price], [rating] and [price_delta] are floats.  The handlers compare
    them ([$gte], [$lte], sort keys), divide two ints and call
    [round(_, 2)]; nothing else.  NaN is not a price: the order is total. *)

Class FloatOps : Type := {
  float : Type;
  (** the float a decimal literal denotes *)
  float_lit : Q -> float;
  (** [a / b] on two ints *)
  truediv : Z -> Z -> float;
  (** [round(x, 2)] *)
  round2 : float -> float;
  (** [a <= b] *)
  fle : float -> float -> bool;
  fle_total : forall a b, fle a b = true \/ fle b a = true;
  fle_trans : forall a b c, fle a b = true -> fle b c = true -> fle a c = true
}.

(** ** Collaborators outside the repository

    The token library, the regular-expression engine of the store and the
    version of the driver.  Strings are ASCII: on a pattern without
    operators the engine's case-insensitive search is the substring test
    of [Str.ci_contains]. *)

Class External : Type := {
  (** [jwt.decode(token, SECRET_KEY, ...)]: [None] is a [JWTError]; on
      success the value of [payload.get("sub")]. *)
  jwt_decode : string -> option (option string);
  (** whether the store compiles the pattern *)
  regex_valid : string -> bool;
  (** [{"$regex": p, "$options": "i"}] on a string value: an unanchored,
      case-insensitive search *)
  regex_search_i : string -> string -> bool;
  (** [hasattr(cursor, 'count')]: true for drivers before version 4 *)
  hasattr_count : bool;
  regex_plain_valid : forall p, Str.plain p = true -> regex_valid p = true;
  regex_plain_search : forall p s,
    Str.plain p = true -> regex_search_i p s = Str.ci_contains p s
}.

(** ** Errors *)

Inductive Exn : Type :=
| HTTPException (status_code : Z) (detail : string)
| RequestValidationError      (* request rejected by the declared shapes, 422 *)
| ValidationError             (* a model built inside a handler is rejected *)
| InvalidId                   (* [ObjectId(s)] on a malformed id *)
| ValueError                  (* [cursor.skip] with a negative count *)
| OperationFailure.           (* the store rejects the query *)

Inductive Result (A : Type) : Type :=
| Ok (a : A)
| Raise (e : Exn).
Arguments Ok {A} a.
Arguments Raise {A} e.

(** The error taxonomy of the API surface. *)
Inductive ErrorKind : Type :=
| InvalidArgument | Unauthorized | NotFound | ServiceUnavailable.

Definition status_of (e : Exn) : Z :=
  match e with
  | HTTPException c _ => c
  | RequestValidationError => 422
  | _ => 500
  end.

Definition kind_of (e : Exn) : ErrorKind :=
  match e with
  | RequestValidationError => InvalidArgument
  | HTTPException c _ =>
      if c =? 400 then InvalidArgument
      else if c =? 401 then Unauthorized
      else if c =? 404 then NotFound
      else ServiceUnavailable
  | _ => ServiceUnavailable
  end.

(** ** Object ids *)

(** An [ObjectId] is a string of bytes, twelve for the ids the store
    hands out; it is kept here as its [str()], the lower-case hexadecimal
    digits of its bytes. *)
Definition oid : Type := string.

Definition hex_digit (n : N) : ascii :=
  ascii_of_N (if (n <? 10)%N then 48 + n else 87 + n)%N.

(** The value of a hexadecimal digit, of either case. *)
Definition hex_value (c : ascii) : option N :=
  let n := N_of_ascii c in
  if ((48 <=? n) && (n <=? 57))%N then Some (n - 48)%N
  else if ((97 <=? n) && (n <=? 102))%N then Some (n - 87)%N
  else if ((65 <=? n) && (n <=? 70))%N then Some (n - 55)%N
  else None.

(** ASCII white space: tab, line feed, vertical tab, form feed, carriage
    return and the space. *)
Definition is_space (c : ascii) : bool :=
  let n := N_of_ascii c in
  (((9 <=? n) && (n <=? 13)) || (n =? 32))%N.

(** [bytes.fromhex]: pairs of hexadecimal digits, white space skipped
    before a pair and at the end; [None] is a [ValueError]. *)
Fixpoint fromhex (s : string) : option (list N) :=
  match s with
  | EmptyString => Some []
  | String c rest =>
      if is_space c then fromhex rest
      else
        match hex_value c, rest with
        | Some top, String d rest' =>
            match hex_value d with
            | Some bot =>
                match fromhex rest' with
                | Some bs => Some ((16 * top + bot)%N :: bs)
                | None => None
                end
            | None => None
            end
        | _, _ => None
        end
  end.

(** [binascii.hexlify]: two lower-case digits for each byte. *)
Fixpoint hexlify (bs : list N) : string :=
  match bs with
  | [] => EmptyString
  | b :: rest =>
      String (hex_digit (b / 16)%N)
             (String (hex_digit (b mod 16)%N) (hexlify rest))
  end.

(** [ObjectId(s)] on a string: the length has to be 24 and
    [bytes.fromhex] has to read it. *)
Definition ObjectId (s : string) : Result oid :=
  if Nat.eqb (String.length s) 24
  then match fromhex s with
       | Some bs => Ok (hexlify bs)
       | None => Raise InvalidId
       end
  else Raise InvalidId.

Fixpoint hex_fixed (k : nat) (n : N) (acc : string) : string :=
  match k with
  | O => acc
  | S k' => hex_fixed k' (n / 16)%N (String (hex_digit (n mod 16)%N) acc)
  end.

(** The id the driver makes up for the [n]-th inserted document. *)
Definition fresh_oid (n : nat) : oid := hex_fixed 24 (N.of_nat n) "".

(** ** The document store

    What the handlers use of the driver: [find] with a filter document,
    [sort], [skip], [limit], [count], [find_one], [insert_one],
    [insert_many], [update_one] with [$set] and [count_documents]. *)

Section Store.

Context {F : FloatOps} {E : External}.

(** Values a filter looks at. *)
Inductive Value : Type :=
| VNull                        (* [None], or the key is absent *)
| VStr (s : string)
| VList (l : list string)
| VNum (x : float)
| VId (o : oid).

(** The right-hand side of one key of a filter document. *)
Inductive Cond : Type :=
| CEq (s : string)                  (* [{k: s}] *)
| CEqId (o : oid)                   (* [{"_id": ObjectId(..)}] *)
| CNe (s : string)                  (* [{k: {"$ne": s}}] *)
| CRegexI (p : string)              (* [{k: {"$regex": p, "$options": "i"}}] *)
| CRange (gte lte : option float).  (* [{k: {"$gte": a, "$lte": b}}], either key optional *)

Inductive Clause : Type :=
| Field (key : string) (c : Cond)
| OrClause (alts : list (string * Cond)).   (* [{"$or": [{k: c}, ...]}] *)

(** A filter document: every key has to hold. *)
Definition Query : Type := list Clause.

Definition eq_holds (s : string) (v : Value) : bool :=
  match v with
  | VStr t => String.eqb s t
  | VList l => existsb (String.eqb s) l
  | _ => false
  end.

Definition bound_holds (lo hi : option float) (x : float) : bool :=
  (match lo with Some a => fle a x | None => true end
   && match hi with Some b => fle x b | None => true end)%bool.

Definition cond_holds (c : Cond) (v : Value) : bool :=
  match c with
  | CEq s => eq_holds s v
  | CEqId o => match v with VId o' => String.eqb o o' | _ => false end
  | CNe s => negb (eq_holds s v)
  | CRegexI p =>
      match v with
      | VStr t => regex_search_i p t
      | VList l => existsb (regex_search_i p) l
      | _ => false
      end
  | CRange lo hi =>
      match v with VNum x => bound_holds lo hi x | _ => false end
  end.

Definition cond_valid (c : Cond) : bool :=
  match c with CRegexI p => regex_valid p | _ => true end.

Definition clause_valid (cl : Clause) : bool :=
  match cl with
  | Field _ c => cond_valid c
  | OrClause alts => forallb (fun kc => cond_valid (snd kc)) alts
  end.

Definition query_valid (q : Query) : bool := forallb clause_valid q.

(** A kind of document: how a filter reads a key, and how the store
    orders two documents by a key. *)
Class Document (D : Type) : Type := {
  doc_get : string -> D -> Value;
  doc_le : string -> D -> D -> bool;
  doc_le_total : forall k a b, doc_le k a b = true \/ doc_le k b a = true
}.

Section Collection.

Context {D : Type} {Doc : Document D}.

Definition clause_holds (cl : Clause) (d : D) : bool :=
  match cl with
  | Field k c => cond_holds c (doc_get k d)
  | OrClause alts =>
      existsb (fun kc => cond_holds (snd kc) (doc_get (fst kc) d)) alts
  end.

Definition matches (q : Query) (d : D) : bool :=
  forallb (fun cl => clause_holds cl d) q.

(** *** Sorting *)

Fixpoint insert_by (le : D -> D -> bool) (x : D) (l : list D) : list D :=
  match l with
  | [] => [x]
  | h :: t => if le x h then x :: h :: t else h :: insert_by le x t
  end.

Definition sort_by (le : D -> D -> bool) (l : list D) : list D :=
  fold_right (insert_by le) [] l.

(** [(key, 1)] is ascending, [(key, -1)] descending. *)
Definition spec_le (spec : string * Z) (a b : D) : bool :=
  if snd spec <? 0 then doc_le (fst spec) b a else doc_le (fst spec) a b.

Definition apply_sort (spec : option (string * Z)) (l : list D) : list D :=
  match spec with
  | Some sp => sort_by (spec_le sp) l
  | None => l
  end.

(** *** Cursors

    A cursor is the description of a query; nothing is read until it
    is counted or iterated. *)
Record Cursor : Type := {
  cur_docs : list D;
  cur_filter : Query;
  cur_sort : option (string * Z);
  cur_skip : Z;
  cur_limit : Z
}.

Definition find (coll : list D) (q : Query) : Cursor :=
  {| cur_docs := coll; cur_filter := q; cur_sort := None;
     cur_skip := 0; cur_limit := 0 |}.

Definition cursor_sort (c : Cursor) (spec : string * Z) : Cursor :=
  {| cur_docs := cur_docs c; cur_filter := cur_filter c;
     cur_sort := Some spec;
     cur_skip := cur_skip c; cur_limit := cur_limit c |}.

(** The driver refuses a negative skip. *)
Definition cursor_skip (c : Cursor) (n : Z) : Result Cursor :=
  if n <? 0 then Raise ValueError
  else Ok {| cur_docs := cur_docs c; cur_filter := cur_filter c;
             cur_sort := cur_sort c;
             cur_skip := n; cur_limit := cur_limit c |}.

Definition cursor_limit (c : Cursor) (n : Z) : Cursor :=
  {| cur_docs := cur_docs c; cur_filter := cur_filter c;
     cur_sort := cur_sort c;
     cur_skip := cur_skip c; cur_limit := n |}.

(** A limit of 0 is no limit; a negative limit is its absolute value. *)
Definition take (n : Z) (l : list D) : list D :=
  if n =? 0 then l else firstn (Z.to_nat (Z.abs n)) l.

Definition selected (c : Cursor) : list D :=
  apply_sort (cur_sort c) (filter (matches (cur_filter c)) (cur_docs c)).

(** Iterating the cursor: filter, sort, skip, limit. *)
Definition cursor_list (c : Cursor) : Result (list D) :=
  if query_valid (cur_filter c)
  then Ok (take (cur_limit c) (skipn (Z.to_nat (cur_skip c)) (selected c)))
  else Raise OperationFailure.

Definition count_documents (coll : list D) (q : Query) : Result Z :=
  if query_valid q
  then Ok (Z.of_nat (List.length (filter (matches q) coll)))
  else Raise OperationFailure.

(** [cursor.count()]: skip and limit are not applied. *)
Definition cursor_count (c : Cursor) : Result Z :=
  count_documents (cur_docs c) (cur_filter c).

Definition find_one (coll : list D) (q : Query) : option D :=
  List.find (matches q) coll.

(** [update_one(q, {"$set": ...})]: the first match is rewritten. *)
Fixpoint update_one (coll : list D) (q : Query) (set : D -> D) : list D :=
  match coll with
  | [] => []
  | d :: rest =>
      if matches q d then set d :: rest
      else d :: update_one rest q set
  end.

End Collection.

End Store.

(** ** Schemas ([schemas.py]) and documents *)

Section Schemas.

Context {F : FloatOps} {E : External}.

Record User : Type := {
  u_name : string;
  u_email : string;
  u_password_hash : string;
  u_avatar_url : option string;
  u_is_active : bool
}.

Record Category : Type := {
  c_name : string;
  c_slug : string;
  c_image : option string;
  c_description : option string
}.

Record Variant : Type := {
  v_name : string;
  v_value : string;
  v_sku : option string;
  v_price_delta : float;
  v_stock : Z
}.

Record Product : Type := {
  title : string;
  slug : string;
  description : option string;
  price : float;
  images : list string;
  category : string;
  tags : list string;
  variants : list Variant;
  rating : float;
  rating_count : Z
}.

Record Review : Type := {
  product_id : string;
  user_id : string;
  user_name : string;
  r_rating : Z;
  comment : option string
}.

(** A stored document: the fields and the [_id] the store gave it. *)
Record Stored (A : Type) : Type := { _id : oid; doc : A }.

(** A document as the API returns it, after
    [d["id"] = str(d.pop("_id"))]. *)
Record Shaped (A : Type) : Type := { id : string; body : A }.

Definition shape {A : Type} (d : Stored A) : Shaped A :=
  {| id := _id d; body := doc d |}.

(** A review as stored: [model_dump()] plus [created_at]. *)
Record ReviewData : Type := { review_of : Review; created_at : Z }.

Definition opt_str (o : option string) : Value :=
  match o with Some s => VStr s | None => VNull end.

#[refine] #[export] Instance ProductDoc : Document (Stored Product) := {
  doc_get k d :=
    if String.eqb k "_id" then VId (_id d)
    else if String.eqb k "title" then VStr (title (doc d))
    else if String.eqb k "slug" then VStr (slug (doc d))
    else if String.eqb k "description" then opt_str (description (doc d))
    else if String.eqb k "price" then VNum (price (doc d))
    else if String.eqb k "category" then VStr (category (doc d))
    else if String.eqb k "tags" then VList (tags (doc d))
    else if String.eqb k "rating" then VNum (rating (doc d))
    else VNull;
  doc_le k a b :=
    if String.eqb k "price" then fle (price (doc a)) (price (doc b))
    else if String.eqb k "rating" then fle (rating (doc a)) (rating (doc b))
    else true
}.
Proof.
  intros k a b.
  destruct (String.eqb k "price"); [apply fle_total|].
  destruct (String.eqb k "rating"); [apply fle_total|].
  now left.
Defined.

#[refine] #[export] Instance ReviewDoc : Document (Stored ReviewData) := {
  doc_get k d :=
    if String.eqb k "_id" then VId (_id d)
    else if String.eqb k "product_id" then VStr (product_id (review_of (doc d)))
    else if String.eqb k "user_id" then VStr (user_id (review_of (doc d)))
    else if String.eqb k "user_name" then VStr (user_name (review_of (doc d)))
    else if String.eqb k "comment" then opt_str (comment (review_of (doc d)))
    else VNull;
  doc_le k a b :=
    if String.eqb k "created_at"
    then created_at (doc a) <=? created_at (doc b)
    else true
}.
Proof.
  intros k a b.
  destruct (String.eqb k "created_at"); [|now left].
  destruct (Z.leb_spec (created_at (doc a)) (created_at (doc b)));
    [now left | right; apply Z.leb_le; lia].
Defined.

#[refine] #[export] Instance UserDoc : Document (Stored User) := {
  doc_get k d :=
    if String.eqb k "_id" then VId (_id d)
    else if String.eqb k "name" then VStr (u_name (doc d))
    else if String.eqb k "email" then VStr (u_email (doc d))
    else VNull;
  doc_le k a b := true
}.
Proof. now left. Defined.

#[refine] #[export] Instance CategoryDoc : Document (Stored Category) := {
  doc_get k d :=
    if String.eqb k "_id" then VId (_id d)
    else if String.eqb k "name" then VStr (c_name (doc d))
    else if String.eqb k "slug" then VStr (c_slug (doc d))
    else VNull;
  doc_le k a b := true
}.
Proof. now left. Defined.

(** The database: the collections the handlers below touch, and the
    count of ids handed out so far. *)
Record DB : Type := {
  users : list (Stored User);
  categories : list (Stored Category);
  products : list (Stored Product);
  reviews : list (Stored ReviewData);
  next_oid : nat
}.

(** [insert_many]: the documents are appended in order, each with a
    fresh id. *)
Fixpoint store_all {A : Type} (n : nat) (l : list A) : list (Stored A) :=
  match l with
  | [] => []
  | a :: rest => {| _id := fresh_oid n; doc := a |} :: store_all (S n) rest
  end.

End Schemas.

(** ** Handlers ([main.py]) *)

Section Handlers.

Context {F : FloatOps} {E : External}.

Definition bind {A B : Type} (r : Result A) (k : A -> Result B) : Result B :=
  match r with
  | Ok a => k a
  | Raise e => Raise e
  end.

Notation "x <- r ;; k" := (bind r (fun x => k))
  (at level 61, r at next level, right associativity).

(** [if s:] on an [Optional[str]]. *)
Definition given (s : option string) : bool :=
  match s with Some t => Str.truthy t | None => false end.

(** *** Authentication *)

Record UserOut : Type := {
  uo_id : string;
  uo_name : string;
  uo_email : string;
  uo_avatar_url : option string
}.

Definition credentials_exception : Exn :=
  HTTPException 401 "Could not validate credentials".

(** [OAuth2PasswordBearer]: the token of an [Authorization: Bearer]
    header; a request without one is refused. *)
Definition oauth2_scheme (authorization : option string) : Result string :=
  match authorization with
  | Some token => Ok token
  | None => Raise (HTTPException 401 "Not authenticated")
  end.

Definition get_current_user (db : DB) (token : string) : Result UserOut :=
  match jwt_decode token with
  | None => Raise credentials_exception
  | Some None => Raise credentials_exception
  | Some (Some uid) =>
      o <- ObjectId uid ;;
      match find_one (users db) [Field "_id" (CEqId o)] with
      | None => Raise credentials_exception
      | Some u =>
          Ok {| uo_id := _id u; uo_name := u_name (doc u);
                uo_email := u_email (doc u);
                uo_avatar_url := u_avatar_url (doc u) |}
      end
  end.

(** *** Catalog *)

Record Page : Type := {
  items : list (Shaped Product);
  page_no : Z;
  page_limit : Z;
  total : Z
}.

(** [Query(None, ge=0)] *)
Definition ge0 (x : option float) : bool :=
  match x with Some v => fle (float_lit 0) v | None => true end.

Definition text_clause (q : string) : Clause :=
  OrClause [ ("title", CRegexI q); ("description", CRegexI q);
             ("tags", CRegexI q) ].

(** Lines 130-145: the filter document. *)
Definition build_filter (q category : option string)
           (min_price max_price : option float) : Query :=
  let filter_q := [] in
  let filter_q :=
    match q with
    | Some t => if Str.truthy t then filter_q ++ [text_clause t] else filter_q
    | None => filter_q
    end in
  let filter_q :=
    match category with
    | Some c =>
        if Str.truthy c then filter_q ++ [Field "category" (CEq c)]
        else filter_q
    | None => filter_q
    end in
  match min_price, max_price with
  | None, None => filter_q
  | _, _ => filter_q ++ [Field "price" (CRange min_price max_price)]
  end.

(** Lines 147-153. *)
Definition sort_spec_of (sort : option string) : option (string * Z) :=
  match sort with
  | Some s =>
      if String.eqb s "price_asc" then Some ("price", 1)
      else if String.eqb s "price_desc" then Some ("price", -1)
      else if String.eqb s "rating_desc" then Some ("rating", -1)
      else None
  | None => None
  end.

Definition list_products (db : option DB) (q category : option string)
           (min_price max_price : option float) (page limit : Z)
           (sort : option string) : Result Page :=
  if negb (ge0 min_price && ge0 max_price) then Raise RequestValidationError
  else
    match db with
    | None => Raise (HTTPException 500 "Database not configured")
    | Some db =>
        let filter_q := build_filter q category min_price max_price in
        let sort_spec := sort_spec_of sort in
        let cursor := find (products db) filter_q in
        let cursor :=
          match sort_spec with
          | Some sp => cursor_sort cursor sp
          | None => cursor
          end in
        total <- (if hasattr_count then cursor_count cursor
                  else count_documents (products db) filter_q) ;;
        cursor <- cursor_skip cursor ((page - 1) * limit) ;;
        let cursor := cursor_limit cursor limit in
        docs <- cursor_list cursor ;;
        Ok {| items := map shape docs; page_no := page;
              page_limit := limit; total := total |}
    end.

Record ProductPage : Type := {
  product : Shaped Product;
  related : list (Shaped Product)
}.

Definition get_product (db : DB) (slug : string) : Result ProductPage :=
  match find_one (products db) [Field "slug" (CEq slug)] with
  | None => Raise (HTTPException 404 "Product not found")
  | Some prod =>
      let prod := shape prod in
      related <-
        cursor_list
          (cursor_limit
             (find (products db)
                   [ Field "category" (CEq (category (body prod)));
                     Field "slug" (CNe slug) ])
             8) ;;
      Ok {| product := prod; related := map shape related |}
  end.

(** *** Reviews *)

(** A request body before validation: a JSON object whose keys may be
    absent or [null]; a [rating] that is present is an integer. *)
Record ReviewBody : Type := {
  b_product_id : option string;
  b_user_id : option string;
  b_user_name : option string;
  b_rating : option Z;
  b_comment : option string
}.

(** The [Review] schema: three required strings and
    [rating: int = Field(..., ge=1, le=5)]. *)
Definition validate_review (b : ReviewBody) : Result Review :=
  match b_product_id b, b_user_id b, b_user_name b, b_rating b with
  | Some p, Some u, Some n, Some r =>
      if ((1 <=? r) && (r <=? 5))%bool
      then Ok {| product_id := p; user_id := u; user_name := n;
                 r_rating := r; comment := b_comment b |}
      else Raise RequestValidationError
  | _, _, _, _ => Raise RequestValidationError
  end.

Definition insert_review (db : DB) (data : ReviewData) : oid * DB :=
  let rid := fresh_oid (next_oid db) in
  (rid,
   {| users := users db; categories := categories db;
      products := products db;
      reviews := reviews db ++ [ {| _id := rid; doc := data |} ];
      next_oid := S (next_oid db) |}).

Definition set_rating (r : float) (n : Z) (p : Stored Product)
  : Stored Product :=
  {| _id := _id p;
     doc := {| title := title (doc p); slug := slug (doc p);
               description := description (doc p); price := price (doc p);
               images := images (doc p); category := category (doc p);
               tags := tags (doc p); variants := variants (doc p);
               rating := r; rating_count := n |} |}.

Definition reviews_of (db : DB) (pid : string) : list (Stored ReviewData) :=
  filter (matches [Field "product_id" (CEq pid)]) (reviews db).

Definition sum_ratings (revs : list (Stored ReviewData)) : Z :=
  fold_right (fun r acc => r_rating (review_of (doc r)) + acc) 0 revs.

(** Lines 200-204: the rating of the product is recomputed from all
    reviews of the product id. *)
Definition update_rating (db : DB) (pid : string) : Result unit * DB :=
  match reviews_of db pid with
  | [] => (Ok tt, db)
  | (_ :: _) as revs =>
      let n := Z.of_nat (List.length revs) in
      let avg := truediv (sum_ratings revs) n in
      match ObjectId pid with
      | Raise e => (Raise e, db)
      | Ok o =>
          (Ok tt,
           {| users := users db; categories := categories db;
              products := update_one (products db) [Field "_id" (CEqId o)]
                                     (set_rating (round2 avg) n);
              reviews := reviews db;
              next_oid := next_oid db |})
      end
  end.

Definition add_review (db : DB) (pid : string) (review : Review)
           (current : option UserOut) (now : Z) : Result string * DB :=
  if negb (String.eqb (product_id review) pid)
  then (Raise (HTTPException 400 "Mismatched product id"), db)
  else
    let data := review in
    let data :=
      match current with
      | Some c =>
          {| product_id := product_id data; user_id := uo_id c;
             user_name := uo_name c; r_rating := r_rating data;
             comment := comment data |}
      | None => data
      end in
    let data := {| review_of := data; created_at := now |} in
    let (rid, db) := insert_review db data in
    match update_rating db pid with
    | (Ok _, db) => (Ok rid, db)
    | (Raise e, db) => (Raise e, db)
    end.

(** The route [POST /api/products/{product_id}/reviews]: the
    dependency [get_current_user] runs first, then the body is checked
    against [Review], then [add_review] runs. *)
Definition post_review (db : DB) (authorization : option string)
           (pid : string) (b : ReviewBody) (now : Z)
  : Result string * DB :=
  match (token <- oauth2_scheme authorization ;;
         get_current_user db token) with
  | Raise e => (Raise e, db)
  | Ok current =>
      match validate_review b with
      | Raise e => (Raise e, db)
      | Ok review => add_review db pid review (Some current) now
      end
  end.

(** *** Seed *)

Definition sample_categories : list Category :=
  [ {| c_name := "Cards"; c_slug := "cards";
       c_image := Some "/cat-cards.jpg"; c_description := None |};
    {| c_name := "Accessories"; c_slug := "accessories";
       c_image := Some "/cat-accessories.jpg"; c_description := None |};
    {| c_name := "Digital"; c_slug := "digital";
       c_image := Some "/cat-digital.jpg"; c_description := None |} ].

Definition variant (n v sku : string) (delta : Q) (stock : Z) : Variant :=
  {| v_name := n; v_value := v; v_sku := Some sku;
     v_price_delta := float_lit delta; v_stock := stock |}.

Definition sample_products : list Product :=
  [ {| title := "Glass Credit Card"; slug := "glass-credit-card";
       description := Some "Minimal, premium glass-morphic card.";
       price := float_lit 129;
       images := ["/prod-card-1.jpg"; "/prod-card-2.jpg"; "/prod-card-3.jpg"];
       category := "cards"; tags := ["card"; "glass"; "fintech"];
       variants := [ variant "Color" "Frost" "GC-FR" 0 25;
                     variant "Color" "Graphite" "GC-GR" 10 12 ];
       rating := float_lit (46 # 10); rating_count := 42 |};
    {| title := "Metal Card Holder"; slug := "metal-card-holder";
       description := Some "Slim aluminum RFID-blocking holder.";
       price := float_lit 49;
       images := ["/prod-holder-1.jpg"; "/prod-holder-2.jpg"];
       category := "accessories"; tags := ["holder"; "rfid"];
       variants := [ variant "Color" "Silver" "MH-SV" 0 40;
                     variant "Color" "Black" "MH-BK" 0 35 ];
       rating := float_lit (44 # 10); rating_count := 26 |};
    {| title := "Virtual Card Subscription";
       slug := "virtual-card-subscription";
       description := Some "Secure virtual cards for online purchases.";
       price := float_lit (999 # 100);
       images := ["/prod-virtual-1.jpg"];
       category := "digital"; tags := ["subscription"; "virtual"];
       variants := [];
       rating := float_lit (48 # 10); rating_count := 61 |} ].

Definition count_all {A : Type} (coll : list A) : Z :=
  Z.of_nat (List.length coll).

Definition seed (db : DB) : Result bool * DB :=
  let db :=
    if count_all (categories db) =? 0
    then {| users := users db;
            categories :=
              categories db ++ store_all (next_oid db) sample_categories;
            products := products db; reviews := reviews db;
            next_oid := next_oid db + List.length sample_categories |}
    else db in
  let db :=
    if count_all (products db) =? 0
    then {| users := users db; categories := categories db;
            products :=
              products db ++ store_all (next_oid db) sample_products;
            reviews := reviews db;
            next_oid := next_oid db + List.length sample_products |}
    else db in
  (Ok true, db).

End Handlers.

(** ** Accounts, review listing and suggestions ([main.py]) *)

(** Password hashing ([passlib]) and token issuing ([jose]).  A hash is
    salted, so hashing takes the salt the library draws; a password
    verifies against each of its hashes; verifying against a string the
    library cannot read as a hash raises. *)
Class Credentials : Type := {
  (** [pwd_context.hash(password)], under the salt drawn *)
  pwd_hash : string -> string -> string;
  (** [pwd_context.verify(plain, hashed)]; [None] when the library
      cannot read [hashed] and raises *)
  pwd_verify : string -> string -> option bool;
  (** [jwt.encode({"sub": sub, "exp": exp}, SECRET_KEY, algorithm)] *)
  jwt_encode : string -> Z -> string;
  pwd_verify_hash : forall salt p, pwd_verify p (pwd_hash salt p) = Some true
}.

Section Accounts.

Context {F : FloatOps} {E : External} {C : Credentials}.

Notation "x <- r ;; k" := (bind r (fun x => k))
  (at level 61, r at next level, right associativity).

Definition ACCESS_TOKEN_EXPIRE_MINUTES : Z := 60 * 24 * 7.

(** The error of the library is a [ValueError]. *)
Definition verify_password (plain_password hashed_password : string)
  : Result bool :=
  match pwd_verify plain_password hashed_password with
  | Some ok => Ok ok
  | None => Raise ValueError
  end.

Definition get_password_hash (salt password : string) : string :=
  pwd_hash salt password.

(** Times and durations are in minutes.  [expires_delta or ...]: a
    duration of zero is falsy, the default applies. *)
Definition create_access_token (sub : string) (expires_delta : option Z)
           (now : Z) : string :=
  let delta :=
    match expires_delta with
    | Some d => if d =? 0 then ACCESS_TOKEN_EXPIRE_MINUTES else d
    | None => ACCESS_TOKEN_EXPIRE_MINUTES
    end in
  jwt_encode sub (now + delta).

Record Token : Type := {
  access_token : string;
  token_type : string
}.

(** [register]; the body has passed [User], its [password_hash] holds the
    plain password.  The [created_at] of the stored document, which no
    handler reads, is not kept. *)
Definition register (db : option DB) (user : User) (salt : string)
  : Result UserOut * option DB :=
  match db with
  | None => (Raise (HTTPException 500 "Database not configured"), db)
  | Some s =>
      match find_one (users s) [Field "email" (CEq (u_email user))] with
      | Some _ => (Raise (HTTPException 400 "Email already registered"), db)
      | None =>
          let data :=
            {| u_name := u_name user; u_email := u_email user;
               u_password_hash := get_password_hash salt (u_password_hash user);
               u_avatar_url := u_avatar_url user;
               u_is_active := u_is_active user |} in
          let user_id := fresh_oid (next_oid s) in
          (Ok {| uo_id := user_id; uo_name := u_name user;
                 uo_email := u_email user;
                 uo_avatar_url := u_avatar_url user |},
           Some {| users := users s ++ [ {| _id := user_id; doc := data |} ];
                   categories := categories s; products := products s;
                   reviews := reviews s; next_oid := S (next_oid s) |})
      end
  end.

(** [login]; [username] and [password] are the fields of the form. *)
Definition login (db : option DB) (username password : string) (now : Z)
  : Result Token :=
  match db with
  | None => Raise (HTTPException 500 "Database not configured")
  | Some s =>
      match find_one (users s) [Field "email" (CEq username)] with
      | None => Raise (HTTPException 400 "Incorrect email or password")
      | Some user =>
          ok <- verify_password password (u_password_hash (doc user)) ;;
          if negb ok
          then Raise (HTTPException 400 "Incorrect email or password")
          else
            Ok {| access_token := create_access_token (_id user) None now;
                  token_type := "bearer" |}
      end
  end.

(** The route [GET /api/me]: the dependency, then [me], which returns
    what it is given. *)
Definition me (current : UserOut) : UserOut := current.

Definition get_me (db : DB) (authorization : option string) : Result UserOut :=
  token <- oauth2_scheme authorization ;;
  current <- get_current_user db token ;;
  Ok (me current).

Definition get_reviews (db : DB) (product_id : string)
  : Result (list (Shaped ReviewData)) :=
  revs <- cursor_list
            (cursor_sort (find (reviews db)
                               [Field "product_id" (CEq product_id)])
                         ("created_at", -1)) ;;
  Ok (map shape revs).

Record Suggestion : Type := { s_title : string; s_slug : string }.

Definition search_suggestions (db : DB) (q : string)
  : Result (list Suggestion) :=
  cursor <- cursor_list
              (cursor_limit (find (products db) [Field "title" (CRegexI q)])
                            8) ;;
  Ok (map (fun d => {| s_title := title (doc d); s_slug := slug (doc d) |})
          cursor).

(** Reviews submitted one after the other to [add_review]: each with its
    caller and its time; the database after the last one. *)
Fixpoint add_reviews (db : DB) (pid : string)
         (subs : list (Review * option UserOut * Z)) : DB :=
  match subs with
  | [] => db
  | (review, current, now) :: rest =>
      add_reviews (snd (add_review db pid review current now)) pid rest
  end.

End Accounts.

(** ** Vocabulary of the statements *)

Definition leP {A : Type} (le : A -> A -> bool) (a b : A) : Prop :=
  le a b = true.

Section Vocabulary.

Context {F : FloatOps} {E : External}.

(** The documents a listing request selects, in the order asked for. *)
Definition selection (db : DB) (q category : option string)
           (min_price max_price : option float) (sort : option string)
  : list (Stored Product) :=
  apply_sort (sort_spec_of sort)
    (filter (matches (build_filter q category min_price max_price))
            (products db)).

(** The requests a listing answers: price bounds not below zero, a
    search term the store compiles, an offset not below zero. *)
Definition listing_accepts (q : option string)
           (min_price max_price : option float) (page limit : Z) : bool :=
  (ge0 min_price && ge0 max_price
   && (if given q then
         match q with Some t => regex_valid t | None => true end
       else true)
   && (0 <=? (page - 1) * limit))%bool.

(** What a listing returns when it returns. *)
Definition listing (db : DB) (q c : option string) (lo hi : option float)
           (page limit : Z) (sort : option string) : Page :=
  {| items :=
       map shape
           (take limit (skipn (Z.to_nat ((page - 1) * limit))
                              (selection db q c lo hi sort)));
     page_no := page;
     page_limit := limit;
     total :=
       Z.of_nat (List.length
                   (filter (matches (build_filter q c lo hi))
                           (products db))) |}.

(** The order of two products by price. *)
Definition by_price (a b : Stored Product) : bool :=
  fle (price (doc a)) (price (doc b)).

Definition prices (l : list (Shaped Product)) : list float :=
  map (fun p => price (body p)) l.

(** The text filter on one product: the term is searched as a regular
    expression in the title, the description and each tag. *)
Definition text_hit (t : string) (d : Stored Product) : bool :=
  (regex_search_i t (title (doc d))
   || match description (doc d) with
      | Some s => regex_search_i t s
      | None => false
      end
   || existsb (regex_search_i t) (tags (doc d)))%bool.

(** The text filter as a substring test. *)
Definition substring_hit (t : string) (d : Stored Product) : bool :=
  (Str.ci_contains t (title (doc d))
   || match description (doc d) with
      | Some s => Str.ci_contains t s
      | None => false
      end
   || existsb (Str.ci_contains t) (tags (doc d)))%bool.

(** The filter in the words of the specification: every parameter that
    is supplied constrains the document, the text by substring. *)
Definition spec_matches (q cat : option string)
           (min_price max_price : option float) (d : Stored Product)
  : Prop :=
  (forall t, q = Some t -> substring_hit t d = true)
  /\ (forall c, cat = Some c -> category (doc d) = c)
  /\ (forall a, min_price = Some a -> fle a (price (doc d)) = true)
  /\ (forall b, max_price = Some b -> fle (price (doc d)) b = true).

Definition by_id (o : oid) : Query := [Field "_id" (CEqId o)].

(** The mean of the ratings of a list of reviews, to two decimals. *)
Definition mean_rating (revs : list (Stored ReviewData)) : float :=
  round2 (truediv (sum_ratings revs) (Z.of_nat (List.length revs))).

(** The review document [add_review] stores: the validated body, the
    identity of the caller over the one in the body, the time. *)
Definition persisted (review : Review) (current : option UserOut)
           (now : Z) : ReviewData :=
  {| review_of :=
       match current with
       | Some c =>
           {| product_id := product_id review; user_id := uo_id c;
              user_name := uo_name c; r_rating := r_rating review;
              comment := comment review |}
       | None => review
       end;
     created_at := now |}.

(** The database once the product with id [o] carries the mean and
    the count of the reviews of [pid]. *)
Definition rated (db : DB) (pid : string) (o : oid) : DB :=
  {| users := users db; categories := categories db;
     products :=
       update_one (products db) (by_id o)
                  (set_rating
                     (mean_rating (reviews_of db pid))
                     (Z.of_nat (List.length (reviews_of db pid))));
     reviews := reviews db;
     next_oid := next_oid db |}.

(** The ratings of the stored reviews whose [product_id] is [pid], in
    store order. *)
Definition ratings_for (pid : string) (db : DB) : list Z :=
  map (fun r => r_rating (review_of (doc r)))
      (filter (fun r => String.eqb (product_id (review_of (doc r))) pid)
              (reviews db)).

(** The sum of a list of integers. *)
Definition total_of (l : list Z) : Z := fold_left Z.add l 0.

(** The arithmetic mean of a list of integers to two decimals: the sum
    divided by the length, rounded with [round(_, 2)]. *)
Definition rounded_mean (l : list Z) : float :=
  round2 (truediv (total_of l) (Z.of_nat (List.length l))).

(** The first stored product whose [_id] is [o]. *)
Definition product_with (o : oid) (db : DB) : option (Stored Product) :=
  List.find (fun p => String.eqb (_id p) o) (products db).

End Vocabulary.

(** ** Vocabulary of the further statements *)

Section MoreVocabulary.

Context {F : FloatOps} {E : External}.

(** The review a submission adds, with the id it gets. *)
Definition stored_review (db : DB) (review : Review)
           (current : option UserOut) (now : Z) : Stored ReviewData :=
  {| _id := fresh_oid (next_oid db); doc := persisted review current now |}.

(** A stored review within the bounds of the schema. *)
Definition rating_in_range (r : Stored ReviewData) : Prop :=
  1 <= r_rating (review_of (doc r)) <= 5.

(** The sum of the ratings of a run of submissions. *)
Definition submitted_sum (subs : list (Review * option UserOut * Z)) : Z :=
  fold_right (fun sub acc => r_rating (fst (fst sub)) + acc) 0 subs.

(** The submissions name the product id [pid]. *)
Definition all_for (pid : string)
           (subs : list (Review * option UserOut * Z)) : Prop :=
  Forall (fun sub => product_id (fst (fst sub)) = pid) subs.

(** No stored user has the id the store hands out next. *)
Definition next_id_unused (db : DB) : Prop :=
  forall u, In u (users db) -> _id u <> fresh_oid (next_oid db).

End MoreVocabulary.

(** ** A concrete instance of the interfaces

    Floats as exact rationals, tokens that spell out their subject, and a
    regular-expression engine for the patterns made of literal characters
    and the wildcard [.]; used to run the handlers on examples. *)

Module Concrete.

Definition q_round2 (x : Q) : Q :=
  let n := (Qnum x * 100)%Z in
  let d := Zpos (Qden x) in
  let lo := (n / d)%Z in
  let r2 := (2 * (n mod d))%Z in
  let up := if (r2 <? d)%Z then false
            else if (d <? r2)%Z then true
            else Z.odd lo in
  Qred ((if up then lo + 1 else lo)%Z # 100).

Lemma q_le_total (a b : Q) : Qle_bool a b = true \/ Qle_bool b a = true.
Proof.
  destruct (Qlt_le_dec a b) as [H | H].
  - left. apply Qle_bool_iff. now apply Qlt_le_weak.
  - right. now apply Qle_bool_iff.
Qed.

Lemma q_le_trans (a b c : Q) :
  Qle_bool a b = true -> Qle_bool b c = true -> Qle_bool a c = true.
Proof.
  rewrite !Qle_bool_iff. apply Qle_trans.
Qed.

#[export] Instance QFloat : FloatOps := {|
  float := Q;
  float_lit := Qred;
  truediv := fun a b => Qred (inject_Z a / inject_Z b);
  round2 := q_round2;
  fle := Qle_bool;
  fle_total := q_le_total;
  fle_trans := q_le_trans
|}.

(** A token ["sub:" ++ uid] carries the subject [uid]; the token
    ["nosub"] is well signed and has no subject; all others are
    rejected. *)
Definition toy_decode (t : string) : option (option string) :=
  if String.prefix "sub:" t
  then Some (Some (String.substring 4 (String.length t - 4) t))
  else if String.eqb t "nosub" then Some None
  else None.

Definition newline : ascii := ascii_of_nat 10.

Definition mini_char (a b : ascii) : bool :=
  if Ascii.eqb a "."%char then negb (Ascii.eqb b newline)
  else Ascii.eqb (Str.lower_ascii a) (Str.lower_ascii b).

Fixpoint mini_prefix (p s : string) : bool :=
  match p, s with
  | EmptyString, _ => true
  | String a p', String b s' => (mini_char a b && mini_prefix p' s')%bool
  | String _ _, EmptyString => false
  end.

Fixpoint mini_search (p s : string) : bool :=
  (mini_prefix p s ||
   match s with
   | EmptyString => false
   | String _ s' => mini_search p s'
   end)%bool.

Definition mini_valid (p : string) : bool :=
  Str.all (fun c => (negb (Str.is_meta c) || Ascii.eqb c "."%char)%bool) p.

Lemma mini_plain_valid (p : string) :
  Str.plain p = true -> mini_valid p = true.
Proof.
  unfold Str.plain, mini_valid.
  induction p as [| c p IH]; simpl; [reflexivity|].
  intros H. apply andb_true_iff in H as [Hc Hp].
  rewrite Hc, (IH Hp). reflexivity.
Qed.

Lemma not_meta_not_dot (c : ascii) :
  Str.is_meta c = false -> Ascii.eqb c "."%char = false.
Proof.
  intros H. destruct (Ascii.eqb_spec c "."%char) as [-> | Hne];
    [discriminate H | reflexivity].
Qed.

Lemma mini_plain_prefix (p : string) :
  Str.plain p = true -> forall s, mini_prefix p s = Str.ci_prefix p s.
Proof.
  unfold Str.plain.
  induction p as [| c p IH]; simpl; intros H s; [reflexivity|].
  apply andb_true_iff in H as [Hc Hp].
  destruct s as [| b s]; [reflexivity|].
  unfold mini_char.
  rewrite (not_meta_not_dot c) by now apply negb_true_iff.
  now rewrite (IH Hp).
Qed.

Lemma mini_plain_search (p s : string) :
  Str.plain p = true -> mini_search p s = Str.ci_contains p s.
Proof.
  intros H. induction s as [| b s IH]; simpl.
  - now rewrite mini_plain_prefix.
  - now rewrite mini_plain_prefix, IH.
Qed.

#[export] Instance Mini : External := {|
  jwt_decode := toy_decode;
  regex_valid := mini_valid;
  regex_search_i := mini_search;
  hasattr_count := false;
  regex_plain_valid := mini_plain_valid;
  regex_plain_search := mini_plain_search
|}.

(** A shop with one registered user and the sample catalog. *)
Definition alice : User :=
  {| u_name := "Alice"; u_email := "alice@example.com";
     u_password_hash := "$2b$12$hash"; u_avatar_url := None;
     u_is_active := true |}.

Definition empty_shop : DB :=
  {| users := [ {| _id := fresh_oid 0; doc := alice |} ];
     categories := []; products := []; reviews := [];
     next_oid := 1 |}.

Definition shop : DB := snd (seed empty_shop).

(** The id of the first sample product in [shop]. *)
Definition glass_id : string := fresh_oid 4.

Definition glass : Stored Product :=
  {| _id := glass_id;
     doc := {| title := "Glass Credit Card"; slug := "glass-credit-card";
               description := Some "Minimal, premium glass-morphic card.";
               price := float_lit 129;
               images := ["/prod-card-1.jpg"; "/prod-card-2.jpg";
                          "/prod-card-3.jpg"];
               category := "cards"; tags := ["card"; "glass"; "fintech"];
               variants := [ variant "Color" "Frost" "GC-FR" 0 25;
                             variant "Color" "Graphite" "GC-GR" 10 12 ];
               rating := float_lit (46 # 10); rating_count := 42 |} |}.

Definition alice_token : string := "sub:" ++ fresh_oid 0.

(** A body without the identity of its author. *)
Definition anonymous_body : ReviewBody :=
  {| b_product_id := Some glass_id; b_user_id := None;
     b_user_name := None; b_rating := Some 5;
     b_comment := Some "great" |}.

(** A body that names somebody else. *)
Definition named_body (r : Z) : ReviewBody :=
  {| b_product_id := Some glass_id; b_user_id := Some "mallory-id";
     b_user_name := Some "Mallory"; b_rating := Some r;
     b_comment := None |}.

Definition four_stars : Review :=
  {| product_id := glass_id; user_id := "u1"; user_name := "Bob";
     r_rating := 4; comment := None |}.

End Concrete.

(** Credentials to run the account handlers with, a hash that spells out
    its password and the tokens of [Concrete.toy_decode], and more sample
    data. *)
Module Samples.

Import Concrete.

Definition toy_hash (salt p : string) : string := (p ++ "$" ++ salt)%string.

Fixpoint has_dollar (h : string) : bool :=
  match h with
  | EmptyString => false
  | String c h' => (Ascii.eqb c "$"%char || has_dollar h')%bool
  end.

(** A string without [$] is no hash. *)
Definition toy_verify (p h : string) : option bool :=
  if has_dollar h then Some (String.prefix (p ++ "$")%string h) else None.

Lemma prefix_app (a b : string) : String.prefix a (a ++ b)%string = true.
Proof.
  induction a as [| c a IH]; simpl.
  - destruct b; reflexivity.
  - destruct (ascii_dec c c) as [_ | H]; [exact IH | congruence].
Qed.

Lemma append_assoc (a b c : string) : ((a ++ b) ++ c = a ++ (b ++ c))%string.
Proof.
  induction a as [| x a IH]; simpl; [reflexivity | now rewrite IH].
Qed.

Lemma has_dollar_app (a b : string) :
  has_dollar (a ++ "$" ++ b)%string = true.
Proof.
  induction a as [| c a IH]; [reflexivity |].
  change (has_dollar (String c a ++ "$" ++ b)%string)
    with (Ascii.eqb c "$"%char || has_dollar (a ++ "$" ++ b)%string)%bool.
  rewrite IH. apply orb_true_r.
Qed.

Lemma toy_verify_hash (salt p : string) :
  toy_verify p (toy_hash salt p) = Some true.
Proof.
  unfold toy_verify.
  replace (has_dollar (toy_hash salt p)) with true
    by (symmetry; apply has_dollar_app).
  unfold toy_hash. rewrite <- append_assoc. now rewrite prefix_app.
Qed.

#[export] Instance Toy : Credentials := {|
  pwd_hash := toy_hash;
  pwd_verify := toy_verify;
  jwt_encode := fun sub _ => ("sub:" ++ sub)%string;
  pwd_verify_hash := toy_verify_hash
|}.

(** Somebody who is not registered in [Concrete.shop]. *)
Definition bob : User :=
  {| u_name := "Bob"; u_email := "bob@example.com";
     u_password_hash := "hunter2"; u_avatar_url := None;
     u_is_active := true |}.

(** Somebody else under Bob's address. *)
Definition robert : User :=
  {| u_name := "Robert"; u_email := "bob@example.com";
     u_password_hash := "other"; u_avatar_url := None;
     u_is_active := true |}.

(** Bob registers in the shop. *)
Definition bob_out : UserOut :=
  {| uo_id := fresh_oid 7; uo_name := "Bob"; uo_email := "bob@example.com";
     uo_avatar_url := None |}.

Definition shop_with_bob : option DB := snd (register (Some shop) bob "salt").

(** A review under a path id that is no object id. *)
Definition misfiled : Review :=
  {| product_id := "glass"; user_id := "u1"; user_name := "Bob";
     r_rating := 2; comment := None |}.

(** A review of a product id that no product has. *)
Definition orphan : Review :=
  {| product_id := fresh_oid 99; user_id := "u1"; user_name := "Bob";
     r_rating := 2; comment := None |}.

(** The shop after one review of the glass card. *)
Definition reviewed_shop : DB :=
  snd (add_review shop glass_id four_stars None 7).

Definition five_stars : Review :=
  {| product_id := glass_id; user_id := "u2"; user_name := "Carol";
     r_rating := 5; comment := Some "superb" |}.

Definition two_reviews : list (Review * option UserOut * Z) :=
  [ (four_stars, None, 7); (five_stars, None, 8) ].

(** A user whose stored hash the library cannot read. *)
Definition legacy_shop : DB :=
  {| users := [ {| _id := fresh_oid 0;
                   doc := {| u_name := "Dan"; u_email := "dan@example.com";
                             u_password_hash := "plaintext";
                             u_avatar_url := None; u_is_active := true |} |} ];
     categories := []; products := []; reviews := []; next_oid := 1 |}.

(** A string of 24 characters that [bytes.fromhex] reads as 8 bytes. *)
Definition spaced_id : string := "00 00 00 00 00 00 00 00 ".

Definition spaced_review : Review :=
  {| product_id := spaced_id; user_id := "u1"; user_name := "Bob";
     r_rating := 3; comment := None |}.

End Samples.

(** * Properties *)

Unset Implicit Arguments.

Lemma Ok_inj {A : Type} (a b : A) : Ok a = Ok b -> a = b.
Proof. congruence. Qed.

(** ** Lists: sorting and windows *)

Section SortFacts.

Context {A : Type} (le : A -> A -> bool).
Hypothesis le_total : forall a b, le a b = true \/ le b a = true.
Hypothesis le_trans :
  forall a b c, le a b = true -> le b c = true -> le a c = true.

Lemma Forall_firstn (P : A -> Prop) (n : nat) (l : list A) :
  Forall P l -> Forall P (firstn n l).
Proof.
  intros H. revert n.
  induction H as [| a l Ha Hl IH]; intros [| n]; simpl; auto.
Qed.

Lemma Forall_skipn (P : A -> Prop) (n : nat) (l : list A) :
  Forall P l -> Forall P (skipn n l).
Proof.
  intros H. revert n.
  induction H as [| a l Ha Hl IH]; intros [| n]; simpl; auto.
Qed.

Lemma StronglySorted_firstn (n : nat) (l : list A) :
  StronglySorted (leP le) l -> StronglySorted (leP le) (firstn n l).
Proof.
  intros H. revert n.
  induction H as [| a l Hs IH Ha]; intros [| n]; simpl;
    try constructor; auto using Forall_firstn.
Qed.

Lemma StronglySorted_skipn (n : nat) (l : list A) :
  StronglySorted (leP le) l -> StronglySorted (leP le) (skipn n l).
Proof.
  intros H. revert n.
  induction H as [| a l Hs IH Ha]; intros [| n]; simpl;
    try constructor; auto.
Qed.

End SortFacts.

Section SortBy.

Context {D : Type} (le : D -> D -> bool).
Hypothesis le_total : forall a b, le a b = true \/ le b a = true.
Hypothesis le_trans :
  forall a b c, le a b = true -> le b c = true -> le a c = true.

Lemma insert_by_In (x y : D) (l : list D) :
  In y (insert_by le x l) -> y = x \/ In y l.
Proof.
  induction l as [| h t IH]; simpl.
  - intros [<- | []]. now left.
  - destruct (le x h); simpl.
    + intros [<- | H]; [now left | now right].
    + intros [<- | H]; [right; now left |].
      destruct (IH H) as [-> | H']; [now left | right; now right].
Qed.

Lemma insert_by_sorted (x : D) (l : list D) :
  StronglySorted (leP le) l -> StronglySorted (leP le) (insert_by le x l).
Proof.
  induction 1 as [| h t Hs IH Hh]; simpl.
  - repeat constructor.
  - destruct (le x h) eqn:Hxh.
    + constructor; [now constructor |].
      constructor; [exact Hxh |].
      eapply Forall_impl; [| exact Hh].
      intros z Hz. exact (le_trans _ _ _ Hxh Hz).
    + constructor; [exact IH |].
      apply Forall_forall. intros z Hz.
      destruct (insert_by_In _ _ _ Hz) as [-> | Hz'].
      * destruct (le_total x h) as [H | H]; [congruence | exact H].
      * exact (proj1 (Forall_forall _ _) Hh z Hz').
Qed.

Lemma sort_by_sorted (l : list D) : StronglySorted (leP le) (sort_by le l).
Proof.
  induction l as [| a l IH]; simpl; [constructor |].
  now apply insert_by_sorted.
Qed.

End SortBy.

Lemma StronglySorted_map {A B : Type} (f : A -> B) (le : B -> B -> bool)
      (l : list A) :
  StronglySorted (leP (fun a b => le (f a) (f b))) l ->
  StronglySorted (leP le) (map f l).
Proof.
  induction 1 as [| a l Hs IH Ha]; simpl; constructor; [exact IH |].
  apply Forall_map. exact Ha.
Qed.

(** ** Catalog listing *)

Section Catalog.

Context {F : FloatOps} {E : External}.

Lemma build_filter_valid (q c : option string) (lo hi : option float) :
  query_valid (build_filter q c lo hi)
  = if given q then match q with Some t => regex_valid t | None => true end
    else true.
Proof.
  unfold build_filter, given, query_valid.
  destruct q as [t |]; [destruct (Str.truthy t) |];
    (destruct c as [s |]; [destruct (Str.truthy s) |]);
    destruct lo, hi; simpl;
    rewrite ?forallb_app; simpl; rewrite ?andb_true_r;
    try reflexivity; destruct (regex_valid t); reflexivity.
Qed.

Lemma list_products_accepted db q c lo hi page limit sort :
  listing_accepts q lo hi page limit = true ->
  list_products (Some db) q c lo hi page limit sort
  = Ok (listing db q c lo hi page limit sort).
Proof.
  unfold listing_accepts, list_products, listing, selection.
  intros H.
  apply andb_true_iff in H as [H Hoff].
  apply andb_true_iff in H as [H Hre].
  rewrite H. simpl.
  rewrite <- (build_filter_valid q c lo hi) in Hre.
  apply Z.leb_le in Hoff.
  assert (Hskip : ((page - 1) * limit <? 0) = false)
    by (apply Z.ltb_ge; exact Hoff).
  destruct (sort_spec_of sort) as [sp |];
    destruct hasattr_count;
    unfold cursor_count, count_documents, cursor_skip, cursor_list,
           cursor_limit, cursor_sort, find, selected; simpl;
    rewrite Hre; simpl; rewrite Hskip; simpl; rewrite Hre; reflexivity.
Qed.

Lemma list_products_refused db q c lo hi page limit sort :
  listing_accepts q lo hi page limit = false ->
  exists e, list_products (Some db) q c lo hi page limit sort = Raise e.
Proof.
  unfold listing_accepts, list_products.
  intros H.
  destruct (ge0 lo && ge0 hi)%bool; simpl in *; [| eauto].
  rewrite <- (build_filter_valid q c lo hi) in H.
  destruct (query_valid (build_filter q c lo hi)) eqn:Hre; simpl in H.
  - apply Z.leb_gt in H.
    assert (Hskip : ((page - 1) * limit <? 0) = true)
      by (apply Z.ltb_lt; exact H).
    destruct (sort_spec_of sort) as [sp |];
      destruct hasattr_count;
      unfold cursor_count, count_documents, cursor_skip, cursor_sort,
             find; simpl;
      rewrite Hre; simpl; rewrite Hskip; simpl; eauto.
  - destruct (sort_spec_of sort) as [sp |];
      destruct hasattr_count;
      unfold cursor_count, count_documents, cursor_sort, find; simpl;
      rewrite Hre; simpl; eauto.
Qed.

(** The listing on every request: the page of [listing] when the
    request is accepted, an exception otherwise. *)
Lemma list_products_cases db q c lo hi page limit sort :
  match list_products (Some db) q c lo hi page limit sort with
  | Ok r => listing_accepts q lo hi page limit = true
            /\ r = listing db q c lo hi page limit sort
  | Raise _ => listing_accepts q lo hi page limit = false
  end.
Proof.
  destruct (listing_accepts q lo hi page limit) eqn:Hacc.
  - rewrite (list_products_accepted db q c lo hi page limit sort Hacc).
    split; reflexivity.
  - destruct (list_products_refused db q c lo hi page limit sort Hacc)
      as [e ->].
    reflexivity.
Qed.

End Catalog.

Section CatalogOrder.

Context {F : FloatOps} {E : External}.

Lemma take_sorted {A : Type} (le : A -> A -> bool) (n : Z) (l : list A) :
  StronglySorted (leP le) l -> StronglySorted (leP le) (take n l).
Proof.
  intros H. unfold take. destruct (n =? 0); [exact H |].
  now apply StronglySorted_firstn.
Qed.

Lemma prices_shape (l : list (Stored Product)) :
  prices (map shape l) = map (fun d => price (doc d)) l.
Proof.
  unfold prices. rewrite map_map. reflexivity.
Qed.

Lemma selection_price_asc db q c lo hi :
  StronglySorted (leP by_price) (selection db q c lo hi (Some "price_asc")).
Proof.
  unfold selection. simpl.
  apply (sort_by_sorted by_price).
  - intros a b. apply fle_total.
  - intros a b d. apply fle_trans.
Qed.

Lemma selection_price_desc db q c lo hi :
  StronglySorted (leP (fun a b => by_price b a))
                 (selection db q c lo hi (Some "price_desc")).
Proof.
  unfold selection. simpl.
  apply (sort_by_sorted (fun a b => by_price b a)).
  - intros a b. apply fle_total.
  - intros a b d H1 H2. exact (fle_trans _ _ _ H2 H1).
Qed.

End CatalogOrder.

Section CatalogClaims.

Context {F : FloatOps} {E : External}.

(** C3.  On every combination of [q], [category], [min_price],
    [max_price], every [page], [limit] and [sort], the [total] of the
    page that [list_products] returns is the number of product
    documents matching the filter; the right-hand side mentions neither
    [page] nor [limit].  The listing raises only on a request outside
    [listing_accepts]. *)
Theorem list_products_total db q c lo hi page limit sort :
  match list_products (Some db) q c lo hi page limit sort with
  | Ok r =>
      total r
      = Z.of_nat (List.length
                    (filter (matches (build_filter q c lo hi))
                            (products db)))
  | Raise _ => listing_accepts q lo hi page limit = false
  end.
Proof.
  pose proof (list_products_cases db q c lo hi page limit sort) as H.
  destruct (list_products (Some db) q c lo hi page limit sort) as [r | e].
  - destruct H as [_ ->]. reflexivity.
  - exact H.
Qed.

(** C4.  For [page >= 1] and [limit >= 1] the items returned are at
    most [limit] many and are the [limit] documents (or as many as
    remain) found at offset [(page - 1) * limit] of the filtered and
    sorted sequence of products. *)
Theorem list_products_window db q c lo hi page limit sort :
  1 <= page -> 1 <= limit ->
  match list_products (Some db) q c lo hi page limit sort with
  | Ok r =>
      (List.length (items r) <= Z.to_nat limit)%nat
      /\ items r
         = map shape
               (firstn (Z.to_nat limit)
                       (skipn (Z.to_nat ((page - 1) * limit))
                              (selection db q c lo hi sort)))
  | Raise _ => listing_accepts q lo hi page limit = false
  end.
Proof.
  intros Hpage Hlimit.
  pose proof (list_products_cases db q c lo hi page limit sort) as H.
  destruct (list_products (Some db) q c lo hi page limit sort) as [r | e];
    [| exact H].
  destruct H as [_ ->]. unfold listing, take. simpl.
  replace (limit =? 0) with false by (symmetry; apply Z.eqb_neq; lia).
  replace (Z.abs limit) with limit by lia.
  split; [| reflexivity].
  rewrite length_map. apply firstn_le_length.
Qed.

(** C7.  With [sort=price_asc] the prices of the items of a page are
    non-decreasing, with [sort=price_desc] non-increasing: in each page
    every item's price is in that order with the price of every later
    item. *)
Theorem list_products_price_order db q c lo hi page limit :
  match list_products (Some db) q c lo hi page limit (Some "price_asc") with
  | Ok r => StronglySorted (leP fle) (prices (items r))
  | Raise _ => listing_accepts q lo hi page limit = false
  end
  /\
  match list_products (Some db) q c lo hi page limit (Some "price_desc") with
  | Ok r => StronglySorted (leP (fun a b => fle b a)) (prices (items r))
  | Raise _ => listing_accepts q lo hi page limit = false
  end.
Proof.
  split.
  - pose proof (list_products_cases db q c lo hi page limit
                                    (Some "price_asc")) as H.
    destruct (list_products (Some db) q c lo hi page limit
                            (Some "price_asc")) as [r | e]; [| exact H].
    destruct H as [_ ->]. unfold listing. cbn [items].
    rewrite prices_shape.
    apply (StronglySorted_map (fun d => price (doc d)) fle).
    apply (take_sorted by_price), StronglySorted_skipn.
    apply selection_price_asc.
  - pose proof (list_products_cases db q c lo hi page limit
                                    (Some "price_desc")) as H.
    destruct (list_products (Some db) q c lo hi page limit
                            (Some "price_desc")) as [r | e]; [| exact H].
    destruct H as [_ ->]. unfold listing. cbn [items].
    rewrite prices_shape.
    apply (StronglySorted_map (fun d => price (doc d))
                              (fun a b => fle b a)).
    apply (take_sorted (fun a b => by_price b a)), StronglySorted_skipn.
    apply selection_price_desc.
Qed.

End CatalogClaims.

(** ** The filter of the listing *)

Section Filter.

Context {F : FloatOps} {E : External}.

Lemma matches_app (a b : Query) (d : Stored Product) :
  matches (a ++ b) d = (matches a d && matches b d)%bool.
Proof. unfold matches. apply forallb_app. Qed.

Lemma clause_text (t : string) (d : Stored Product) :
  clause_holds (text_clause t) d = text_hit t d.
Proof.
  unfold text_hit. simpl. rewrite orb_false_r, orb_assoc.
  destruct (description (doc d)); reflexivity.
Qed.

Lemma truthy_iff (s : string) : Str.truthy s = true <-> s <> "".
Proof.
  destruct s; simpl; split; intros H; congruence.
Qed.

(** The filter document as one boolean test. *)
Lemma matches_build_filter q c lo hi (d : Stored Product) :
  matches (build_filter q c lo hi) d
  = ((match q with
      | Some t => if Str.truthy t then text_hit t d else true
      | None => true
      end)
     && (match c with
         | Some s =>
             if Str.truthy s then String.eqb s (category (doc d)) else true
         | None => true
         end)
     && bound_holds lo hi (price (doc d)))%bool.
Proof.
  unfold build_filter.
  destruct q as [t |]; [destruct (Str.truthy t) |];
    (destruct c as [s |]; [destruct (Str.truthy s) |]);
    destruct lo, hi;
    rewrite ?matches_app; unfold matches; cbn [forallb app];
    rewrite ?clause_text; simpl; rewrite ?andb_true_r; reflexivity.
Qed.

Lemma text_hit_plain (t : string) (d : Stored Product) :
  Str.plain t = true -> text_hit t d = substring_hit t d.
Proof.
  intros Hp. unfold text_hit, substring_hit.
  rewrite (regex_plain_search t (title (doc d)) Hp).
  f_equal; [f_equal |].
  - destruct (description (doc d)); [| reflexivity].
    now apply regex_plain_search.
  - induction (tags (doc d)) as [| g l IH]; simpl; [reflexivity |].
    now rewrite IH, (regex_plain_search t g Hp).
Qed.

(** C5, amended.  A product matches the filter of the listing exactly
    when it satisfies every filter that is given: the term [q], when
    not empty, is found as a case-insensitive regular expression in the
    title, the description or one of the tags; [category], when not
    empty, is the product's category; the price is at least
    [min_price] and at most [max_price], for the bounds given.  A
    parameter that is absent, and an empty [q] or [category], imposes
    nothing.  For a term without regular-expression operators the text
    filter is the case-insensitive substring test. *)
Theorem filter_conjunction q c lo hi (d : Stored Product) :
  (matches (build_filter q c lo hi) d = true
   <-> (forall t, q = Some t -> t <> "" -> text_hit t d = true)
       /\ (forall s, c = Some s -> s <> "" -> category (doc d) = s)
       /\ (forall a, lo = Some a -> fle a (price (doc d)) = true)
       /\ (forall b, hi = Some b -> fle (price (doc d)) b = true))
  /\ (forall t, Str.plain t = true -> text_hit t d = substring_hit t d).
Proof.
  split; [| intros t; apply text_hit_plain].
  rewrite matches_build_filter.
  unfold bound_holds. rewrite !andb_true_iff.
  split.
  - intros [[Hq Hc] [Hlo Hhi]]. repeat split.
    + intros t -> Ht. apply truthy_iff in Ht. now rewrite Ht in Hq.
    + intros s -> Hs. apply truthy_iff in Hs. rewrite Hs in Hc.
      symmetry. now apply String.eqb_eq.
    + intros a ->. exact Hlo.
    + intros b ->. exact Hhi.
  - intros (Hq & Hc & Hlo & Hhi). repeat split.
    + destruct q as [t |]; [| reflexivity].
      destruct (Str.truthy t) eqn:Ht; [| reflexivity].
      apply (Hq t eq_refl). now apply truthy_iff.
    + destruct c as [s |]; [| reflexivity].
      destruct (Str.truthy s) eqn:Hs; [| reflexivity].
      apply String.eqb_eq. symmetry.
      apply (Hc s eq_refl). now apply truthy_iff.
    + destruct lo as [a |]; [now apply Hlo | reflexivity].
    + destruct hi as [b |]; [now apply Hhi | reflexivity].
Qed.

End Filter.

(** ** Product lookup *)

Section Lookup.

Context {F : FloatOps} {E : External}.

Lemma matches_slug (s : string) (d : Stored Product) :
  matches [Field "slug" (CEq s)] d = String.eqb s (slug (doc d)).
Proof. unfold matches. simpl. apply andb_true_r. Qed.

Lemma matches_related (c s : string) (d : Stored Product) :
  matches [Field "category" (CEq c); Field "slug" (CNe s)] d
  = (String.eqb c (category (doc d))
     && negb (String.eqb s (slug (doc d))))%bool.
Proof. unfold matches. simpl. now rewrite andb_true_r. Qed.

Lemma get_product_found db s (prod : Stored Product) :
  find_one (products db) [Field "slug" (CEq s)] = Some prod ->
  get_product db s
  = Ok {| product := shape prod;
          related :=
            map shape
                (firstn 8
                   (filter
                      (matches [Field "category" (CEq (category (doc prod)));
                                Field "slug" (CNe s)])
                      (products db))) |}.
Proof.
  intros H. unfold get_product. rewrite H. reflexivity.
Qed.

(** C8.  Looking a product up by a slug that no product has fails with
    status 404, [NotFound]; by a slug some product has it succeeds;
    and on success the product returned has the slug asked for, the
    related list has at most 8 products, each of the category of the
    product returned, none with the slug asked for and so none the
    product returned. *)
Theorem get_product_spec db s :
  ((forall p, In p (products db) -> slug (doc p) <> s) ->
   exists e, get_product db s = Raise e
             /\ status_of e = 404 /\ kind_of e = NotFound)
  /\ ((exists p, In p (products db) /\ slug (doc p) = s) ->
      exists r, get_product db s = Ok r)
  /\ (forall r, get_product db s = Ok r ->
      slug (body (product r)) = s
      /\ (List.length (related r) <= 8)%nat
      /\ Forall (fun x => category (body x) = category (body (product r))
                          /\ slug (body x) <> s
                          /\ x <> product r)
                (related r)).
Proof.
  split; [| split].
  - intros Hnone. unfold get_product.
    destruct (find_one (products db) [Field "slug" (CEq s)])
      as [prod |] eqn:Hf.
    + apply find_some in Hf as [Hin Hm].
      rewrite matches_slug in Hm. apply String.eqb_eq in Hm.
      exfalso. now apply (Hnone prod Hin).
    + eexists. repeat split.
  - intros (p & Hin & Hs).
    destruct (find_one (products db) [Field "slug" (CEq s)])
      as [prod |] eqn:Hf.
    + rewrite (get_product_found db s prod Hf). eauto.
    + exfalso.
      pose proof (find_none _ _ Hf p Hin) as Hm.
      rewrite matches_slug, <- Hs, String.eqb_refl in Hm. discriminate.
  - intros r Hr.
    destruct (find_one (products db) [Field "slug" (CEq s)])
      as [prod |] eqn:Hf.
    + rewrite (get_product_found db s prod Hf) in Hr.
      apply Ok_inj in Hr. subst r. cbn [product related].
      apply find_some in Hf as [_ Hm].
      rewrite matches_slug in Hm. apply String.eqb_eq in Hm.
      split; [now symmetry |].
      split; [rewrite length_map; apply firstn_le_length |].
      apply Forall_map, Forall_firstn, Forall_forall.
      intros x Hx. apply filter_In in Hx as [_ Hx].
      rewrite matches_related in Hx.
      apply andb_true_iff in Hx as [Hc Hs].
      apply String.eqb_eq in Hc.
      apply negb_true_iff, String.eqb_neq in Hs.
      assert (Hne : slug (doc x) <> s) by congruence.
      repeat split; simpl; [now symmetry | exact Hne |].
      intros Heq. apply Hne.
      apply (f_equal (fun y => slug (body y))) in Heq. simpl in Heq.
      congruence.
    + unfold get_product in Hr. rewrite Hf in Hr. discriminate.
Qed.

End Lookup.

(** ** Seed *)

Section Seed.

Context {F : FloatOps} {E : External}.

(** C9.  [seed] always answers [ok]; it leaves a non-empty category
    collection as it is and fills an empty one with the three sample
    categories, and likewise the product collection with the three
    sample products; and a second call changes nothing: the database,
    and so the category and product counts, stay as the first call
    left them. *)
Theorem seed_idempotent db :
  let db1 := snd (seed db) in
  fst (seed db) = Ok true
  /\ categories db1
     = match categories db with
       | [] => store_all (next_oid db) sample_categories
       | _ :: _ => categories db
       end
  /\ products db1
     = match products db with
       | [] => store_all (next_oid db1 - 3) sample_products
       | _ :: _ => products db
       end
  /\ seed db1 = (Ok true, db1)
  /\ count_all (categories (snd (seed db1))) = count_all (categories db1)
  /\ count_all (products (snd (seed db1))) = count_all (products db1).
Proof.
  destruct db as [us cs ps rs n].
  assert (Hn : forall k : nat, (k + 3 - 3 = k)%nat) by (intros; lia).
  destruct cs as [| c cs], ps as [| p ps]; cbv zeta;
    unfold seed; cbn -[sample_categories sample_products Nat.sub];
    rewrite ?Hn; repeat split; reflexivity.
Qed.

End Seed.

(** ** Reviews *)

Section Reviews.

Context {F : FloatOps} {E : External}.

Lemma matches_product_id (pid : string) (d : Stored ReviewData) :
  matches [Field "product_id" (CEq pid)] d
  = String.eqb pid (product_id (review_of (doc d))).
Proof. unfold matches. simpl. apply andb_true_r. Qed.

Lemma matches_by_id (o : oid) (d : Stored Product) :
  matches (by_id o) d = String.eqb o (_id d).
Proof. unfold matches, by_id. simpl. apply andb_true_r. Qed.

Lemma reviews_of_insert db data pid :
  product_id (review_of data) = pid ->
  reviews_of (snd (insert_review db data)) pid
  = reviews_of db pid
    ++ [ {| _id := fresh_oid (next_oid db); doc := data |} ].
Proof.
  intros H. unfold reviews_of, insert_review. cbn [snd reviews].
  rewrite filter_app. cbn [filter].
  rewrite matches_product_id. cbn [doc]. rewrite H, String.eqb_refl.
  reflexivity.
Qed.

(** After [update_one], [find_one] by id finds the rewritten document. *)
Lemma find_one_update_one (coll : list (Stored Product)) o r n :
  find_one (update_one coll (by_id o) (set_rating r n)) (by_id o)
  = option_map (set_rating r n) (find_one coll (by_id o)).
Proof.
  unfold find_one.
  induction coll as [| d rest IH]; [reflexivity |].
  cbn [update_one List.find].
  destruct (matches (by_id o) d) eqn:Hd.
  - cbn [List.find].
    assert (Hs : matches (by_id o) (set_rating r n d) = true)
      by (rewrite <- Hd, !matches_by_id; reflexivity).
    rewrite Hs. reflexivity.
  - cbn [List.find]. rewrite Hd. exact IH.
Qed.

Lemma update_rating_some db pid o :
  reviews_of db pid <> [] ->
  ObjectId pid = Ok o ->
  update_rating db pid = (Ok tt, rated db pid o).
Proof.
  intros Hne Ho. unfold update_rating, rated, mean_rating, by_id.
  destruct (reviews_of db pid) as [| r revs]; [congruence |].
  rewrite Ho. reflexivity.
Qed.

Lemma reviews_of_rated db pid o pid' :
  reviews_of (rated db pid o) pid' = reviews_of db pid'.
Proof. reflexivity. Qed.

Lemma find_one_rated db pid o :
  find_one (products (rated db pid o)) (by_id o)
  = option_map (set_rating
                  (mean_rating (reviews_of db pid))
                  (Z.of_nat (List.length (reviews_of db pid))))
               (find_one (products db) (by_id o)).
Proof. unfold rated. cbn [products]. apply find_one_update_one. Qed.

Lemma update_rating_invalid db pid e :
  reviews_of db pid <> [] ->
  ObjectId pid = Raise e ->
  update_rating db pid = (Raise e, db).
Proof.
  intros Hne Ho. unfold update_rating.
  destruct (reviews_of db pid) as [| r revs]; [congruence |].
  rewrite Ho. reflexivity.
Qed.

Lemma add_review_unfold db pid review current now :
  product_id review = pid ->
  add_review db pid review current now
  = match update_rating
            (snd (insert_review db (persisted review current now))) pid
    with
    | (Ok _, db2) => (Ok (fresh_oid (next_oid db)), db2)
    | (Raise e, db2) => (Raise e, db2)
    end.
Proof.
  intros H. unfold add_review, persisted.
  rewrite H, String.eqb_refl. cbn [negb].
  destruct current; reflexivity.
Qed.

Lemma persisted_product_id review current now :
  product_id (review_of (persisted review current now))
  = product_id review.
Proof. destruct current; reflexivity. Qed.

Lemma reviews_of_grown db pid review current now :
  product_id review = pid ->
  reviews_of (snd (insert_review db (persisted review current now))) pid
  <> [].
Proof.
  intros H. rewrite reviews_of_insert.
  - intros Habs. symmetry in Habs. exact (app_cons_not_nil _ _ _ Habs).
  - now rewrite persisted_product_id.
Qed.

Lemma add_review_mismatch db pid review current now :
  product_id review <> pid ->
  add_review db pid review current now
  = (Raise (HTTPException 400 "Mismatched product id"), db).
Proof.
  intros H. unfold add_review.
  apply String.eqb_neq in H. rewrite H. reflexivity.
Qed.

(** A successful [add_review] in terms of the handler's own queries. *)
Lemma add_review_rated db pid review current now :
  (forall rid db',
      add_review db pid review current now = (Ok rid, db') ->
      exists o,
        ObjectId pid = Ok o
        /\ reviews_of db' pid
           = reviews_of db pid
             ++ [ {| _id := rid; doc := persisted review current now |} ]
        /\ (forall p, find_one (products db) (by_id o) = Some p ->
                      exists p', find_one (products db') (by_id o) = Some p')
        /\ (forall p', find_one (products db') (by_id o) = Some p' ->
              rating (doc p') = mean_rating (reviews_of db' pid)
              /\ rating_count (doc p')
                 = Z.of_nat (List.length (reviews_of db' pid))))
  /\ (forall o, product_id review = pid -> ObjectId pid = Ok o ->
      exists rid db',
        add_review db pid review current now = (Ok rid, db'))
  /\ (reviews_of db pid = [] -> update_rating db pid = (Ok tt, db)).
Proof.
  split; [| split].
  - intros rid db' Hadd.
    destruct (String.eqb_spec (product_id review) pid) as [Hpid | Hpid];
      [| rewrite (add_review_mismatch db pid review current now Hpid)
          in Hadd; discriminate].
    rewrite (add_review_unfold db pid review current now Hpid) in Hadd.
    pose proof (reviews_of_grown db pid review current now Hpid) as Hne.
    pose proof (reviews_of_insert db (persisted review current now) pid)
      as Hins.
    rewrite persisted_product_id in Hins. specialize (Hins Hpid).
    set (db1 := snd (insert_review db (persisted review current now))) in *.
    destruct (ObjectId pid) as [o | e] eqn:Ho.
    + rewrite (update_rating_some db1 pid o Hne Ho) in Hadd.
      assert (Hrid : rid = fresh_oid (next_oid db)) by congruence.
      assert (Hdb : db' = rated db1 pid o) by congruence.
      subst rid db'. clear Hadd.
      exists o. split; [reflexivity |].
      rewrite reviews_of_rated, find_one_rated.
      change (products db1) with (products db).
      split; [exact Hins |]. split.
      * intros p Hp. rewrite Hp. cbn [option_map]. eauto.
      * intros p' Hp'.
        destruct (find_one (products db) (by_id o)) as [p |];
          [| discriminate].
        cbn [option_map] in Hp'.
        assert (Hp : p' = set_rating
                           (mean_rating (reviews_of db1 pid))
                           (Z.of_nat (List.length (reviews_of db1 pid))) p)
          by congruence.
        rewrite Hp. split; reflexivity.
    + rewrite (update_rating_invalid db1 pid e Hne Ho) in Hadd.
      discriminate.
  - intros o Hpid Ho.
    rewrite (add_review_unfold db pid review current now Hpid).
    rewrite (update_rating_some _ pid o
               (reviews_of_grown db pid review current now Hpid) Ho).
    eauto.
  - intros Hnone. unfold update_rating. rewrite Hnone. reflexivity.
Qed.

Lemma post_review_authenticated db token current pid b now :
  get_current_user db token = Ok current ->
  post_review db (Some token) pid b now
  = match validate_review b with
    | Raise e => (Raise e, db)
    | Ok review => add_review db pid review (Some current) now
    end.
Proof.
  intros H. unfold post_review. cbn [oauth2_scheme bind]. now rewrite H.
Qed.

Lemma validate_review_identity b review :
  validate_review b = Ok review ->
  b_user_id b = Some (user_id review)
  /\ b_user_name b = Some (user_name review).
Proof.
  unfold validate_review.
  destruct (b_product_id b), (b_user_id b), (b_user_name b), (b_rating b)
    as [r |]; try discriminate.
  destruct ((1 <=? r) && (r <=? 5))%bool; [| discriminate].
  intros H. apply Ok_inj in H. subst review. split; reflexivity.
Qed.

Lemma validate_review_rating b r :
  b_rating b = Some r -> r < 1 \/ 5 < r ->
  validate_review b = Raise RequestValidationError.
Proof.
  intros Hr Hout. unfold validate_review. rewrite Hr.
  destruct (b_product_id b), (b_user_id b), (b_user_name b);
    try reflexivity.
  replace ((1 <=? r) && (r <=? 5))%bool with false; [reflexivity |].
  symmetry. apply andb_false_iff.
  destruct Hout; [left; apply Z.leb_gt | right; apply Z.leb_gt];
    assumption.
Qed.

(** C2, amended.  A review needs [user_id] and [user_name] as strings:
    a submission whose body has [null] (or nothing) for either is
    refused, whatever the credentials, and leaves the database as it
    was. *)
Theorem post_review_needs_identity db authorization pid b now :
  b_user_id b = None \/ b_user_name b = None ->
  exists e, post_review db authorization pid b now = (Raise e, db).
Proof.
  intros Hnull. unfold post_review.
  destruct authorization as [token |]; cbn [oauth2_scheme bind];
    [| eauto].
  destruct (get_current_user db token) as [current | e]; [| eauto].
  destruct (validate_review b) as [review | e] eqn:Hv; [| eauto].
  apply validate_review_identity in Hv as [Hu Hn].
  destruct Hnull; congruence.
Qed.

(** A submission whose rating is an integer outside [1..5] never gets
    past the route: it fails and the database is left as it was; past
    the dependency [get_current_user] the failure is the validation
    error of the [Review] schema. *)
Lemma post_review_rating_range db authorization pid b now r :
  b_rating b = Some r -> r < 1 \/ 5 < r ->
  exists e,
    post_review db authorization pid b now = (Raise e, db)
    /\ (forall token current,
           authorization = Some token ->
           get_current_user db token = Ok current ->
           e = RequestValidationError /\ kind_of e = InvalidArgument).
Proof.
  intros Hr Hout.
  pose proof (validate_review_rating b r Hr Hout) as Hv.
  destruct authorization as [token |].
  - destruct (get_current_user db token) as [current | e] eqn:Hu.
    + exists RequestValidationError.
      rewrite (post_review_authenticated db token current pid b now Hu), Hv.
      split; [reflexivity |]. intros; split; reflexivity.
    + exists e. unfold post_review. cbn [oauth2_scheme bind]. rewrite Hu.
      split; [reflexivity |]. intros token' current H1 H2.
      injection H1 as <-. congruence.
  - eexists. split; [reflexivity |]. intros; discriminate.
Qed.

Lemma get_current_user_from_store db token current :
  get_current_user db token = Ok current ->
  exists u, In u (users db)
            /\ uo_id current = _id u /\ uo_name current = u_name (doc u).
Proof.
  unfold get_current_user.
  destruct (jwt_decode token) as [[uid |] |]; try discriminate.
  destruct (ObjectId uid) as [o | e]; [| discriminate].
  cbn [bind].
  destruct (find_one (users db) [Field "_id" (CEqId o)]) as [u |] eqn:Hf;
    [| discriminate].
  intros H. apply Ok_inj in H. subst current.
  apply find_some in Hf as [Hin _].
  exists u. repeat split. exact Hin.
Qed.

(** C10.  When a review is submitted with a bearer token that
    identifies a user, a body the schema accepts and the product id of
    the path, the one review added to the collection carries as
    [user_id] and [user_name] the id and the name of that user, a
    document of the user collection, whatever [user_id] and
    [user_name] the body gave; the other fields are those of the
    body. *)
Theorem post_review_identity db token current pid b now review :
  get_current_user db token = Ok current ->
  validate_review b = Ok review ->
  product_id review = pid ->
  (exists u, In u (users db)
             /\ uo_id current = _id u /\ uo_name current = u_name (doc u))
  /\ exists rid,
      reviews (snd (post_review db (Some token) pid b now))
      = reviews db
        ++ [ {| _id := rid;
                doc := {| review_of :=
                            {| product_id := pid;
                               user_id := uo_id current;
                               user_name := uo_name current;
                               r_rating := r_rating review;
                               comment := comment review |};
                          created_at := now |} |} ].
Proof.
  intros Hu Hv Hpid.
  split; [exact (get_current_user_from_store db token current Hu) |].
  exists (fresh_oid (next_oid db)).
  rewrite (post_review_authenticated db token current pid b now Hu), Hv.
  rewrite (add_review_unfold db pid review (Some current) now Hpid).
  pose proof (reviews_of_grown db pid review (Some current) now Hpid)
    as Hne.
  set (db1 := snd (insert_review db (persisted review (Some current) now)))
    in *.
  assert (H1 : reviews db1
               = reviews db
                 ++ [ {| _id := fresh_oid (next_oid db);
                         doc := persisted review (Some current) now |} ])
    by reflexivity.
  unfold persisted in H1. rewrite Hpid in H1.
  destruct (ObjectId pid) as [o | e] eqn:Ho.
  - rewrite (update_rating_some db1 pid o Hne Ho). exact H1.
  - rewrite (update_rating_invalid db1 pid e Hne Ho). exact H1.
Qed.

End Reviews.

(** ** Object ids handed out by the store *)

Section FreshIds.

Lemma hex_digit_ok (m : N) :
  (m < 16)%N ->
  Str.is_hex (hex_digit m) = true
  /\ Str.lower_ascii (hex_digit m) = hex_digit m.
Proof.
  intros H.
  destruct m as [| p]; [split; reflexivity |].
  do 4 (try destruct p as [p | p |]); try (split; reflexivity);
    exfalso; lia.
Qed.

Lemma hex_fixed_ok (k : nat) (n : N) (acc : string) :
  Str.all Str.is_hex acc = true -> Str.lower acc = acc ->
  String.length (hex_fixed k n acc) = (k + String.length acc)%nat
  /\ Str.all Str.is_hex (hex_fixed k n acc) = true
  /\ Str.lower (hex_fixed k n acc) = hex_fixed k n acc.
Proof.
  revert n acc. induction k as [| k IH]; intros n acc Hhex Hlow; simpl.
  - auto.
  - destruct (hex_digit_ok (n mod 16)%N) as [Hd Hl];
      [apply N.mod_lt; discriminate |].
    destruct (IH (n / 16)%N (String (hex_digit (n mod 16)%N) acc))
      as (H1 & H2 & H3).
    + simpl. now rewrite Hd, Hhex.
    + simpl. now rewrite Hl, Hlow.
    + simpl in H1. repeat split; [lia | exact H2 | exact H3].
Qed.

Lemma lower_hex_char (c : ascii) :
  Str.is_hex c = true -> Str.lower_ascii c = c ->
  is_space c = false
  /\ exists v, hex_value c = Some v /\ (v < 16)%N /\ hex_digit v = c.
Proof.
  destruct c as [[|] [|] [|] [|] [|] [|] [|] [|]];
    intros H1 H2; try discriminate H1; try discriminate H2;
    (split; [reflexivity |]; eexists;
     split; [reflexivity |]; split; reflexivity).
Qed.

Lemma fromhex_lower_hex (n : nat) :
  forall s,
    String.length s = (2 * n)%nat ->
    Str.all Str.is_hex s = true -> Str.lower s = s ->
    exists bs, fromhex s = Some bs /\ hexlify bs = s.
Proof.
  induction n as [| n IH]; intros s Hlen Hhex Hlow.
  - destruct s; [| discriminate]. exists []. split; reflexivity.
  - destruct s as [| c [| d s']];
      [simpl in Hlen; lia | simpl in Hlen; lia |].
    simpl in Hhex, Hlow.
    apply andb_true_iff in Hhex as [Hc Hhex].
    apply andb_true_iff in Hhex as [Hd Hhex].
    injection Hlow as Hlc Hld Hlow.
    destruct (lower_hex_char c Hc Hlc) as (Hsc & top & Hvc & Htop & Hdc).
    destruct (lower_hex_char d Hd Hld) as (_ & bot & Hvd & Hbot & Hdd).
    destruct (IH s') as (bs & Hbs & Hs'); [simpl in Hlen; lia | auto | auto |].
    exists ((16 * top + bot)%N :: bs).
    split.
    + cbn [fromhex]. rewrite Hsc, Hvc, Hvd, Hbs. reflexivity.
    + cbn [hexlify].
      replace ((16 * top + bot) / 16)%N with top
        by (apply (N.div_unique _ 16 top bot); [exact Hbot | reflexivity]).
      replace ((16 * top + bot) mod 16)%N with bot
        by (apply (N.mod_unique _ 16 top bot); [exact Hbot | reflexivity]).
      now rewrite Hdc, Hdd, Hs'.
Qed.

(** An id of the store is a well-formed object id and denotes itself. *)
Lemma ObjectId_fresh (n : nat) : ObjectId (fresh_oid n) = Ok (fresh_oid n).
Proof.
  unfold ObjectId, fresh_oid.
  destruct (hex_fixed_ok 24 (N.of_nat n) "" eq_refl eq_refl)
    as (H1 & H2 & H3).
  destruct (fromhex_lower_hex 12 _ H1 H2 H3) as (bs & Hbs & Hhex).
  rewrite H1, Hbs, Hhex. reflexivity.
Qed.

End FreshIds.

(** ** More on the catalog listing *)

Section Windows.

Context {A : Type}.

Lemma insert_by_perm (le : A -> A -> bool) (x : A) (l : list A) :
  Permutation (insert_by le x l) (x :: l).
Proof.
  induction l as [| h t IH]; simpl; [reflexivity |].
  destruct (le x h); [reflexivity |].
  rewrite IH. apply perm_swap.
Qed.

Lemma sort_by_perm (le : A -> A -> bool) (l : list A) :
  Permutation (sort_by le l) l.
Proof.
  induction l as [| a l IH]; simpl; [reflexivity |].
  rewrite insert_by_perm. now constructor.
Qed.

Lemma firstn_plus (n m : nat) (l : list A) :
  firstn (n + m) l = firstn n l ++ firstn m (skipn n l).
Proof.
  revert l. induction n as [| n IH]; intros l; [reflexivity |].
  destruct l as [| a l]; simpl.
  - now rewrite firstn_nil.
  - now rewrite IH.
Qed.

Lemma filter_none (f : A -> bool) (l : list A) :
  (forall x, f x = false) -> filter f l = [].
Proof.
  intros H. induction l as [| a l IH]; simpl; [reflexivity |].
  now rewrite H.
Qed.

Lemma take_length (n : Z) (l : list A) :
  (List.length (take n l) <= List.length l)%nat.
Proof.
  unfold take. destruct (n =? 0); [lia |].
  rewrite length_firstn. lia.
Qed.

Lemma take_all (n : Z) (l : list A) :
  Z.of_nat (List.length l) <= n -> take n l = l.
Proof.
  intros H. unfold take. destruct (n =? 0); [reflexivity |].
  apply firstn_all2. lia.
Qed.

End Windows.

Section CatalogMore.

Context {F : FloatOps} {E : External}.

Lemma apply_sort_perm (spec : option (string * Z)) (l : list (Stored Product)) :
  Permutation (apply_sort spec l) l.
Proof.
  destruct spec as [sp |]; simpl; [apply sort_by_perm | reflexivity].
Qed.

Lemma selection_length db q c lo hi sort :
  List.length (selection db q c lo hi sort)
  = List.length (filter (matches (build_filter q c lo hi)) (products db)).
Proof.
  unfold selection. apply Permutation_length, apply_sort_perm.
Qed.

(** X13.  Two consecutive pages of one request, put end to end, are the
    stretch of [2 * limit] documents of the filtered and sorted sequence
    that starts where the first page starts: no document is left out
    between the pages and none is on both. *)
Theorem list_products_pages_adjoin db q c lo hi page limit sort :
  1 <= page -> 1 <= limit ->
  listing_accepts q lo hi page limit = true ->
  exists r1 r2,
    list_products (Some db) q c lo hi page limit sort = Ok r1
    /\ list_products (Some db) q c lo hi (page + 1) limit sort = Ok r2
    /\ items r1 ++ items r2
       = map shape
             (firstn (Z.to_nat (2 * limit))
                     (skipn (Z.to_nat ((page - 1) * limit))
                            (selection db q c lo hi sort))).
Proof.
  intros Hpage Hlimit Hacc.
  assert (Hacc' : listing_accepts q lo hi (page + 1) limit = true).
  { unfold listing_accepts in *.
    apply andb_true_iff in Hacc as [H _]. rewrite H. simpl.
    apply Z.leb_le. nia. }
  exists (listing db q c lo hi page limit sort),
         (listing db q c lo hi (page + 1) limit sort).
  split; [now apply list_products_accepted |].
  split; [now apply list_products_accepted |].
  unfold listing, take. cbn [items].
  replace (limit =? 0) with false by (symmetry; apply Z.eqb_neq; lia).
  replace (Z.abs limit) with limit by lia.
  rewrite <- map_app. f_equal.
  replace (Z.to_nat (2 * limit)) with (Z.to_nat limit + Z.to_nat limit)%nat
    by lia.
  rewrite firstn_plus, skipn_skipn. do 3 f_equal. nia.
Qed.

(** X14.  Sorting reorders and nothing else: when the first page is
    large enough for every match, the items returned under any [sort]
    are a rearrangement of the items returned without [sort], and the
    totals agree. *)
Theorem list_products_sort_rearranges db q c lo hi limit sort r0 :
  1 <= limit ->
  list_products (Some db) q c lo hi 1 limit None = Ok r0 ->
  total r0 <= limit ->
  exists r,
    list_products (Some db) q c lo hi 1 limit sort = Ok r
    /\ Permutation (items r) (items r0)
    /\ total r = total r0.
Proof.
  intros Hlimit H0 Htotal.
  pose proof (list_products_cases db q c lo hi 1 limit None) as Hc.
  rewrite H0 in Hc. destruct Hc as [Hacc ->].
  exists (listing db q c lo hi 1 limit sort).
  split; [now apply list_products_accepted |].
  split; [| reflexivity].
  unfold listing in *. cbn [items total] in *. simpl Z.to_nat.
  rewrite !skipn_0.
  rewrite !take_all by (rewrite selection_length; exact Htotal).
  apply Permutation_map. unfold selection.
  rewrite apply_sort_perm. simpl. reflexivity.
Qed.

(** X15.  With [sort=rating_desc] the ratings of the items of a page are
    non-increasing. *)
Theorem list_products_rating_order db q c lo hi page limit :
  match list_products (Some db) q c lo hi page limit (Some "rating_desc") with
  | Ok r =>
      StronglySorted (leP (fun a b => fle b a))
                     (map (fun p => rating (body p)) (items r))
  | Raise _ => listing_accepts q lo hi page limit = false
  end.
Proof.
  pose proof (list_products_cases db q c lo hi page limit
                                  (Some "rating_desc")) as H.
  destruct (list_products (Some db) q c lo hi page limit
                          (Some "rating_desc")) as [r | e]; [| exact H].
  destruct H as [_ ->]. unfold listing. cbn [items].
  rewrite map_map. cbn [shape body].
  apply (StronglySorted_map (fun d => rating (doc d)) (fun a b => fle b a)).
  apply (take_sorted (fun a b => fle (rating (doc b)) (rating (doc a)))),
        StronglySorted_skipn.
  unfold selection. simpl.
  apply (sort_by_sorted (fun a b => fle (rating (doc b)) (rating (doc a)))).
  - intros a b. apply fle_total.
  - intros a b d H1 H2. exact (fle_trans _ _ _ H2 H1).
Qed.

(** X16.  A [sort] value other than [price_asc], [price_desc] and
    [rating_desc] is ignored: the listing is the one without [sort]. *)
Theorem list_products_unknown_sort db q c lo hi page limit s :
  s <> "price_asc" -> s <> "price_desc" -> s <> "rating_desc" ->
  list_products db q c lo hi page limit (Some s)
  = list_products db q c lo hi page limit None.
Proof.
  intros H1 H2 H3. unfold list_products, sort_spec_of.
  apply String.eqb_neq in H1, H2, H3. rewrite H1, H2, H3. reflexivity.
Qed.

(** X17.  A price range whose lower bound is above its upper bound
    selects nothing: the listing returns no item and a total of 0. *)
Theorem list_products_empty_range db q c lo hi page limit sort :
  fle lo hi = false ->
  match list_products (Some db) q c (Some lo) (Some hi) page limit sort with
  | Ok r => items r = [] /\ total r = 0
  | Raise _ => listing_accepts q (Some lo) (Some hi) page limit = false
  end.
Proof.
  intros Hgap.
  pose proof (list_products_cases db q c (Some lo) (Some hi) page limit sort)
    as H.
  destruct (list_products (Some db) q c (Some lo) (Some hi) page limit sort)
    as [r | e]; [| exact H].
  destruct H as [_ ->].
  assert (Hnone : filter (matches (build_filter q c (Some lo) (Some hi)))
                         (products db) = []).
  { apply filter_none. intros d. rewrite matches_build_filter.
    apply andb_false_iff. right. unfold bound_holds.
    destruct (fle lo (price (doc d))) eqn:H1; [| reflexivity].
    destruct (fle (price (doc d)) hi) eqn:H2; [| reflexivity].
    rewrite (fle_trans _ _ _ H1 H2) in Hgap. discriminate. }
  unfold listing, selection. cbn [items total]. rewrite Hnone.
  split; [| reflexivity].
  assert (Hs : apply_sort (sort_spec_of sort) (@nil (Stored Product)) = [])
    by (destruct (sort_spec_of sort); reflexivity).
  rewrite Hs, skipn_nil. unfold take.
  destruct (limit =? 0); [reflexivity | now rewrite firstn_nil].
Qed.

(** X18.  A page never holds more items than the total it reports, and
    the total is never more than the number of products in the store. *)
Theorem list_products_counts db q c lo hi page limit sort :
  match list_products (Some db) q c lo hi page limit sort with
  | Ok r =>
      Z.of_nat (List.length (items r)) <= total r
      /\ total r <= count_all (products db)
  | Raise _ => listing_accepts q lo hi page limit = false
  end.
Proof.
  pose proof (list_products_cases db q c lo hi page limit sort) as H.
  destruct (list_products (Some db) q c lo hi page limit sort) as [r | e];
    [| exact H].
  destruct H as [_ ->]. unfold listing, count_all. cbn [items total].
  split.
  - rewrite length_map, <- selection_length with (sort := sort).
    pose proof (take_length limit
                  (skipn (Z.to_nat ((page - 1) * limit))
                         (selection db q c lo hi sort))) as H1.
    rewrite length_skipn in H1. lia.
  - pose proof (filter_length_le (matches (build_filter q c lo hi))
                                 (products db)). lia.
Qed.

(** X19.  A price bound below zero is refused by the declared shape of
    the request, status 422, before the store is looked at: also when no
    database is configured. *)
Theorem list_products_negative_price db q c lo hi page limit sort :
  ge0 lo = false \/ ge0 hi = false ->
  list_products db q c lo hi page limit sort = Raise RequestValidationError
  /\ status_of RequestValidationError = 422.
Proof.
  intros H. unfold list_products.
  replace (ge0 lo && ge0 hi)%bool with false; [split; reflexivity |].
  symmetry. apply andb_false_iff. exact H.
Qed.

(** X20.  A page number below 1 with a positive limit is not clamped:
    the offset is negative, the driver refuses it and the listing fails,
    with [ValueError] (status 500) when the request is otherwise in
    order. *)
Theorem list_products_page_below_one db q c lo hi page limit sort :
  page < 1 -> 1 <= limit ->
  exists e,
    list_products (Some db) q c lo hi page limit sort = Raise e
    /\ (ge0 lo = true -> ge0 hi = true ->
        (forall t, q = Some t -> regex_valid t = true) ->
        e = ValueError /\ status_of e = 500).
Proof.
  intros Hpage Hlimit.
  assert (Hoff : ((page - 1) * limit <? 0) = true) by (apply Z.ltb_lt; nia).
  assert (Hacc : listing_accepts q lo hi page limit = false).
  { unfold listing_accepts. apply andb_false_iff. right.
    apply Z.leb_gt. nia. }
  destruct (list_products_refused db q c lo hi page limit sort Hacc)
    as [e He].
  exists e. split; [exact He |].
  intros Hlo Hhi Hre.
  assert (Hv : query_valid (build_filter q c lo hi) = true).
  { rewrite build_filter_valid. destruct q as [t |]; simpl; [| reflexivity].
    destruct (Str.truthy t); [now apply Hre | reflexivity]. }
  unfold list_products in He. rewrite Hlo, Hhi in He. simpl in He.
  destruct (sort_spec_of sort) as [sp |]; destruct hasattr_count;
    unfold cursor_count, count_documents, cursor_skip, cursor_sort, find
      in He; simpl in He; rewrite Hv in He; simpl in He;
    rewrite Hoff in He; simpl in He;
    assert (e = ValueError) by congruence; subst e; split; reflexivity.
Qed.

(** X21.  A search term the store cannot compile as a regular expression
    is not searched literally: the listing fails with the store's error,
    status 500. *)
Theorem list_products_bad_pattern db t c lo hi page limit sort :
  t <> "" -> regex_valid t = false ->
  ge0 lo = true -> ge0 hi = true ->
  list_products (Some db) (Some t) c lo hi page limit sort
  = Raise OperationFailure
  /\ status_of OperationFailure = 500.
Proof.
  intros Ht Hre Hlo Hhi. split; [| reflexivity].
  assert (Hv : query_valid (build_filter (Some t) c lo hi) = false).
  { rewrite build_filter_valid. simpl.
    apply truthy_iff in Ht. now rewrite Ht. }
  unfold list_products. rewrite Hlo, Hhi. simpl.
  destruct (sort_spec_of sort) as [sp |]; destruct hasattr_count;
    unfold cursor_count, count_documents, cursor_sort, find; simpl;
    rewrite Hv; reflexivity.
Qed.

(** X25.  For [page >= 1] and [limit >= 1] the number of items on a page
    is what the total leaves for it: [limit] on a full page, the rest on
    the last one, and none on a page past the end. *)
Theorem list_products_page_size db q c lo hi page limit sort :
  1 <= page -> 1 <= limit ->
  match list_products (Some db) q c lo hi page limit sort with
  | Ok r =>
      Z.of_nat (List.length (items r))
      = Z.max 0 (Z.min limit (total r - (page - 1) * limit))
  | Raise _ => listing_accepts q lo hi page limit = false
  end.
Proof.
  intros Hpage Hlimit.
  pose proof (list_products_cases db q c lo hi page limit sort) as H.
  destruct (list_products (Some db) q c lo hi page limit sort) as [r | e];
    [| exact H].
  destruct H as [_ ->]. unfold listing, take. cbn [items total].
  replace (limit =? 0) with false by (symmetry; apply Z.eqb_neq; lia).
  rewrite length_map, length_firstn, length_skipn.
  rewrite <- selection_length with (sort := sort).
  assert (0 <= (page - 1) * limit) by nia.
  lia.
Qed.

End CatalogMore.

(** ** Search suggestions *)

Section Suggestions.

Context {F : FloatOps} {E : External}.

Lemma matches_title (q : string) (d : Stored Product) :
  matches [Field "title" (CRegexI q)] d = regex_search_i q (title (doc d)).
Proof. unfold matches. simpl. apply andb_true_r. Qed.

(** X22.  [search_suggestions] answers when the store compiles the term
    and fails with the store's error otherwise.  It suggests at most 8
    pairs; each is the title and slug of a stored product whose title
    the term is found in, and, for a term that is not empty, of a
    product that the listing filtered by the same term selects. *)
Theorem search_suggestions_spec db q :
  match search_suggestions db q with
  | Ok l =>
      regex_valid q = true
      /\ (List.length l <= 8)%nat
      /\ Forall (fun sg =>
                   exists d,
                     In d (products db)
                     /\ s_title sg = title (doc d)
                     /\ s_slug sg = slug (doc d)
                     /\ regex_search_i q (title (doc d)) = true
                     /\ (q <> "" ->
                         matches (build_filter (Some q) None None None) d
                         = true))
                l
  | Raise e => regex_valid q = false /\ e = OperationFailure
  end.
Proof.
  unfold search_suggestions, cursor_list, cursor_limit, find, selected, take.
  cbn [cur_filter cur_docs cur_sort cur_skip cur_limit apply_sort
       query_valid forallb clause_valid cond_valid].
  rewrite andb_true_r.
  destruct (regex_valid q); [| split; reflexivity].
  cbn [bind Z.eqb Z.abs Z.to_nat skipn].
  split; [reflexivity |].
  split; [rewrite length_map; apply firstn_le_length |].
  apply Forall_map, Forall_firstn, Forall_forall.
  intros d Hd. apply filter_In in Hd as [Hin Hm].
  rewrite matches_title in Hm.
  exists d. cbn [s_title s_slug]. repeat split; try assumption.
  intros Hq. rewrite matches_build_filter.
  apply truthy_iff in Hq. rewrite Hq. unfold text_hit. rewrite Hm.
  reflexivity.
Qed.

(** X23.  The empty term is found in every title: the suggestions for it
    are the first 8 products of the store, in store order. *)
Theorem search_suggestions_empty_term db :
  search_suggestions db ""
  = Ok (map (fun d => {| s_title := title (doc d); s_slug := slug (doc d) |})
            (firstn 8 (products db))).
Proof.
  unfold search_suggestions, cursor_list, cursor_limit, find, selected, take.
  cbn [cur_filter cur_docs cur_sort cur_skip cur_limit apply_sort
       query_valid forallb clause_valid cond_valid].
  rewrite (regex_plain_valid "" eq_refl).
  cbn [andb bind Z.eqb Z.abs Z.to_nat skipn].
  do 3 f_equal.
  induction (products db) as [| d l IH]; [reflexivity |].
  cbn [filter]. rewrite matches_title, (regex_plain_search "" _ eq_refl).
  replace (Str.ci_contains "" (title (doc d))) with true
    by (destruct (title (doc d)); reflexivity).
  now rewrite IH.
Qed.

End Suggestions.

(** ** Listing reviews *)

Section ReviewListing.

Context {F : FloatOps} {E : External}.

Lemma StronglySorted_weaken {A : Type} (R R' : A -> A -> Prop) (l : list A) :
  (forall a b, R a b -> R' a b) ->
  StronglySorted R l -> StronglySorted R' l.
Proof.
  intros HR. induction 1 as [| a l Hs IH Ha]; constructor; [exact IH |].
  eapply Forall_impl; [| exact Ha]. intros b. apply HR.
Qed.

Lemma get_reviews_eq db pid :
  get_reviews db pid
  = Ok (map shape
            (sort_by (fun a b : Stored ReviewData =>
                        created_at (doc b) <=? created_at (doc a))
                     (reviews_of db pid))).
Proof. reflexivity. Qed.

(** X5.  [get_reviews] always answers, for any string as product id.
    The answer holds exactly the stored reviews of that product id, each
    once, with their ids, ordered newest first: no review is followed by
    one created later. *)
Theorem get_reviews_spec db pid :
  exists l,
    get_reviews db pid = Ok l
    /\ Permutation l (map shape (reviews_of db pid))
    /\ StronglySorted
         (fun a b => created_at (body b) <= created_at (body a)) l.
Proof.
  eexists. split; [apply get_reviews_eq |]. split.
  - apply Permutation_map, sort_by_perm.
  - apply (StronglySorted_weaken
             (leP (fun a b : Shaped ReviewData =>
                     created_at (body b) <=? created_at (body a)))).
    + intros a b H. apply Z.leb_le. exact H.
    + apply (StronglySorted_map
               shape
               (fun a b : Shaped ReviewData =>
                  created_at (body b) <=? created_at (body a))).
      apply (sort_by_sorted
               (fun a b : Stored ReviewData =>
                  created_at (doc b) <=? created_at (doc a))).
      * intros a b.
        destruct (Z.leb_spec (created_at (doc b)) (created_at (doc a)));
          [now left | right; apply Z.leb_le; lia].
      * intros a b c H1 H2. apply Z.leb_le in H1, H2. apply Z.leb_le. lia.
Qed.

End ReviewListing.

(** ** More on submitting reviews *)

Section ReviewsMore.

Context {F : FloatOps} {E : External}.

Lemma update_rating_reviews db pid :
  reviews (snd (update_rating db pid)) = reviews db.
Proof.
  unfold update_rating.
  destruct (reviews_of db pid); [reflexivity |].
  destruct (ObjectId pid); reflexivity.
Qed.

Lemma add_review_snd db pid review current now :
  product_id review = pid ->
  snd (add_review db pid review current now)
  = snd (update_rating
           (snd (insert_review db (persisted review current now))) pid).
Proof.
  intros H. rewrite (add_review_unfold db pid review current now H).
  destruct (update_rating _ pid) as [[u | e] db2]; reflexivity.
Qed.

Lemma add_review_reviews db pid review current now :
  product_id review = pid ->
  reviews (snd (add_review db pid review current now))
  = reviews db ++ [stored_review db review current now].
Proof.
  intros H. rewrite (add_review_snd db pid review current now H).
  rewrite update_rating_reviews. reflexivity.
Qed.

Lemma add_review_reviews_of db pid review current now :
  product_id review = pid ->
  reviews_of (snd (add_review db pid review current now)) pid
  = reviews_of db pid ++ [stored_review db review current now].
Proof.
  intros H. unfold reviews_of at 1.
  rewrite (add_review_reviews db pid review current now H).
  rewrite filter_app. cbn [filter].
  rewrite matches_product_id. unfold stored_review at 1. cbn [doc].
  rewrite persisted_product_id, H, String.eqb_refl. reflexivity.
Qed.

Lemma update_one_missing (coll : list (Stored Product)) q set :
  find_one coll q = None -> update_one coll q set = coll.
Proof.
  unfold find_one. induction coll as [| d rest IH]; [reflexivity |].
  cbn [List.find update_one].
  destruct (matches q d); [discriminate |].
  intros H. now rewrite IH.
Qed.

Lemma ObjectId_raises s e : ObjectId s = Raise e -> e = InvalidId.
Proof.
  unfold ObjectId.
  destruct (Nat.eqb (String.length s) 24); [| congruence].
  destruct (fromhex s); congruence.
Qed.

(** X6.  A review that [add_review] takes under the product id of the
    path is listed by [get_reviews] for that id right afterwards, under
    the id [add_review] returns when it returns one; so also when
    [add_review] fails after the insertion. *)
Theorem add_review_then_get_reviews db pid review current now :
  product_id review = pid ->
  exists l,
    get_reviews (snd (add_review db pid review current now)) pid = Ok l
    /\ In (shape (stored_review db review current now)) l
    /\ List.length l = S (List.length (reviews_of db pid))
    /\ (forall rid,
           fst (add_review db pid review current now) = Ok rid ->
           rid = id (shape (stored_review db review current now))).
Proof.
  intros Hpid.
  set (db' := snd (add_review db pid review current now)).
  exists (map shape
              (sort_by (fun a b : Stored ReviewData =>
                          created_at (doc b) <=? created_at (doc a))
                       (reviews_of db' pid))).
  split; [apply get_reviews_eq |].
  assert (Hrevs : reviews_of db' pid
                  = reviews_of db pid ++ [stored_review db review current now])
    by (apply add_review_reviews_of; exact Hpid).
  split; [| split].
  - apply in_map.
    apply (Permutation_in _ (Permutation_sym (sort_by_perm _ _))).
    rewrite Hrevs. apply in_or_app. right. now left.
  - rewrite length_map, (Permutation_length (sort_by_perm _ _)), Hrevs.
    rewrite length_app. simpl. lia.
  - intros rid Hrid.
    rewrite (add_review_unfold db pid review current now Hpid) in Hrid.
    destruct (update_rating _ pid) as [[u | e] db2]; simpl in Hrid;
      [| discriminate].
    apply Ok_inj in Hrid. now subst rid.
Qed.

(** X7.  Under a path id that is not a well-formed object id the review
    is stored all the same and the call then fails with [InvalidId],
    status 500: the review collection has grown by the review, the
    products are as before. *)
Theorem add_review_malformed_id db pid review current now e :
  product_id review = pid ->
  ObjectId pid = Raise e ->
  exists db',
    add_review db pid review current now = (Raise InvalidId, db')
    /\ status_of InvalidId = 500
    /\ reviews db' = reviews db ++ [stored_review db review current now]
    /\ products db' = products db.
Proof.
  intros Hpid Ho.
  pose proof (ObjectId_raises pid e Ho) as ->.
  rewrite (add_review_unfold db pid review current now Hpid).
  rewrite (update_rating_invalid _ pid InvalidId
             (reviews_of_grown db pid review current now Hpid) Ho).
  eexists. repeat split.
Qed.

(** X8.  Under a well-formed path id that no product has, [add_review]
    succeeds: the review is stored, and no product is created or
    changed. *)
Theorem add_review_unknown_product db pid review current now o :
  product_id review = pid ->
  ObjectId pid = Ok o ->
  find_one (products db) (by_id o) = None ->
  exists rid db',
    add_review db pid review current now = (Ok rid, db')
    /\ reviews db' = reviews db ++ [stored_review db review current now]
    /\ products db' = products db.
Proof.
  intros Hpid Ho Hnone.
  rewrite (add_review_unfold db pid review current now Hpid).
  rewrite (update_rating_some _ pid o
             (reviews_of_grown db pid review current now Hpid) Ho).
  eexists. eexists. split; [reflexivity |]. split; [reflexivity |].
  unfold rated. cbn [products].
  change (products (snd (insert_review db (persisted review current now))))
    with (products db).
  now apply update_one_missing.
Qed.

Lemma update_one_pointwise (coll : list (Stored Product)) o r n :
  Forall2 (fun p p' => p' = p \/ (_id p = o /\ p' = set_rating r n p))
          coll (update_one coll (by_id o) (set_rating r n)).
Proof.
  induction coll as [| d rest IH]; [constructor |].
  cbn [update_one]. destruct (matches (by_id o) d) eqn:Hd.
  - constructor.
    + right. rewrite matches_by_id in Hd. apply String.eqb_eq in Hd.
      split; [now symmetry | reflexivity].
    + clear. induction rest; constructor; auto.
  - constructor; [now left | exact IH].
Qed.

(** X9.  Whatever [add_review] answers, it leaves users and categories
    as they were and keeps the products in number and order; a product
    it changes has the object id of the path and changes in [rating] and
    [rating_count] only. *)
Theorem add_review_other_documents db pid review current now :
  let db' := snd (add_review db pid review current now) in
  users db' = users db
  /\ categories db' = categories db
  /\ Forall2 (fun p p' =>
                p' = p
                \/ (ObjectId pid = Ok (_id p)
                    /\ exists r n, p' = set_rating r n p))
             (products db) (products db').
Proof.
  cbv zeta.
  assert (Hrefl : forall l : list (Stored Product),
             Forall2 (fun p p' =>
                        p' = p
                        \/ (ObjectId pid = Ok (_id p)
                            /\ exists r n, p' = set_rating r n p)) l l)
    by (induction l; constructor; auto).
  destruct (String.eqb_spec (product_id review) pid) as [Hpid | Hpid].
  - rewrite (add_review_snd db pid review current now Hpid).
    set (db1 := snd (insert_review db (persisted review current now))).
    pose proof (reviews_of_grown db pid review current now Hpid) as Hne.
    fold db1 in Hne.
    destruct (ObjectId pid) as [o | e] eqn:Ho.
    + rewrite (update_rating_some db1 pid o Hne Ho).
      repeat split.
      eapply Forall2_impl; [| apply update_one_pointwise].
      intros p p' [-> | [Hid ->]]; [now left |].
      right. split; [now rewrite Hid | eauto].
    + rewrite (update_rating_invalid db1 pid e Hne Ho).
      repeat split. apply Hrefl.
  - rewrite (add_review_mismatch db pid review current now Hpid).
    repeat split. apply Hrefl.
Qed.

(** X10.  With a valid token and a body the schema accepts, a product id
    in the body that differs from the one in the path is refused with
    status 400, [InvalidArgument], and nothing is stored. *)
Theorem post_review_mismatch db token current pid b now review :
  get_current_user db token = Ok current ->
  validate_review b = Ok review ->
  product_id review <> pid ->
  post_review db (Some token) pid b now
  = (Raise (HTTPException 400 "Mismatched product id"), db)
  /\ kind_of (HTTPException 400 "Mismatched product id") = InvalidArgument.
Proof.
  intros Hu Hv Hpid. split; [| reflexivity].
  rewrite (post_review_authenticated db token current pid b now Hu), Hv.
  now apply add_review_mismatch.
Qed.

Lemma validate_review_range b review :
  validate_review b = Ok review -> 1 <= r_rating review <= 5.
Proof.
  unfold validate_review.
  destruct (b_product_id b), (b_user_id b), (b_user_name b), (b_rating b)
    as [r |]; try discriminate.
  destruct ((1 <=? r) && (r <=? 5))%bool eqn:Hr; [| discriminate].
  intros H. apply Ok_inj in H. subst review. cbn [r_rating].
  apply andb_true_iff in Hr as [H1 H2].
  apply Z.leb_le in H1, H2. lia.
Qed.

(** X11.  The route keeps the review collection within the schema: if
    every stored review has a rating from 1 to 5, so has every stored
    review after a submission, whatever the request and its outcome. *)
Theorem post_review_keeps_ratings db authorization pid b now :
  Forall rating_in_range (reviews db) ->
  Forall rating_in_range
         (reviews (snd (post_review db authorization pid b now))).
Proof.
  intros Hinv. unfold post_review.
  destruct authorization as [token |]; cbn [oauth2_scheme bind];
    [| exact Hinv].
  destruct (get_current_user db token) as [current | e]; [| exact Hinv].
  destruct (validate_review b) as [review | e] eqn:Hv; [| exact Hinv].
  destruct (String.eqb_spec (product_id review) pid) as [Hpid | Hpid].
  - rewrite (add_review_reviews db pid review (Some current) now Hpid).
    apply Forall_app. split; [exact Hinv |].
    constructor; [| constructor].
    unfold rating_in_range, stored_review, persisted. cbn.
    now apply validate_review_range with (b := b).
  - rewrite (add_review_mismatch db pid review (Some current) now Hpid).
    exact Hinv.
Qed.

End ReviewsMore.

(** ** The rating after a review *)

Section ReviewMean.

Context {F : FloatOps} {E : External}.

Lemma reviews_of_filter db pid :
  reviews_of db pid
  = filter (fun r => String.eqb (product_id (review_of (doc r))) pid)
           (reviews db).
Proof.
  unfold reviews_of. apply filter_ext. intros r.
  rewrite matches_product_id. apply String.eqb_sym.
Qed.

Lemma find_one_product_with db o :
  find_one (products db) (by_id o) = product_with o db.
Proof.
  unfold find_one, product_with.
  induction (products db) as [| p l IH]; [reflexivity |].
  cbn [List.find]. rewrite matches_by_id, (String.eqb_sym o (_id p)), IH.
  reflexivity.
Qed.

Lemma fold_left_ratings (revs : list (Stored ReviewData)) (a : Z) :
  fold_left Z.add (map (fun r => r_rating (review_of (doc r))) revs) a
  = a + sum_ratings revs.
Proof.
  revert a. unfold sum_ratings.
  induction revs as [| r revs IH]; intros a; simpl; [lia |].
  rewrite IH. lia.
Qed.

Lemma mean_rating_rounded (revs : list (Stored ReviewData)) :
  mean_rating revs
  = rounded_mean (map (fun r => r_rating (review_of (doc r))) revs).
Proof.
  unfold mean_rating, rounded_mean, total_of.
  now rewrite fold_left_ratings, length_map.
Qed.

Lemma ratings_for_reviews_of db pid :
  ratings_for pid db
  = map (fun r => r_rating (review_of (doc r))) (reviews_of db pid).
Proof. unfold ratings_for. now rewrite reviews_of_filter. Qed.

(** C1.  When [add_review] returns an id, the path id is a well-formed
    object id [o], the review collection is the one of before with the
    new review at its end, a product with id [o] is still there if it
    was, and the first product with id [o] has as [rating] the
    arithmetic mean of the [rating] of all stored reviews whose
    [product_id] is the path id, rounded to two decimals, and as
    [rating_count] their number.  [add_review] returns an id whenever
    the body names the product id of the path and that id is well
    formed.  The recomputation for a product id without reviews leaves
    the database as it is. *)
Theorem add_review_rating db pid review current now :
  (forall rid db',
      add_review db pid review current now = (Ok rid, db') ->
      exists o,
        ObjectId pid = Ok o
        /\ reviews db'
           = reviews db
             ++ [ {| _id := rid; doc := persisted review current now |} ]
        /\ (forall p, product_with o db = Some p ->
                      exists p', product_with o db' = Some p')
        /\ (forall p', product_with o db' = Some p' ->
              rating (doc p') = rounded_mean (ratings_for pid db')
              /\ rating_count (doc p')
                 = Z.of_nat (List.length (ratings_for pid db'))))
  /\ (forall o, product_id review = pid -> ObjectId pid = Ok o ->
      exists rid db',
        add_review db pid review current now = (Ok rid, db'))
  /\ (ratings_for pid db = [] -> update_rating db pid = (Ok tt, db)).
Proof.
  destruct (add_review_rated db pid review current now) as (H1 & H2 & H3).
  split; [| split].
  - intros rid db' Hadd.
    destruct (H1 rid db' Hadd) as (o & Ho & Hrevs & Hkeep & Hrate).
    exists o. split; [exact Ho |].
    assert (Hpid : product_id review = pid).
    { destruct (String.eqb_spec (product_id review) pid) as [Hp | Hp];
        [exact Hp |].
      rewrite (add_review_mismatch db pid review current now Hp) in Hadd.
      discriminate. }
    assert (Hdb : db' = snd (add_review db pid review current now))
      by now rewrite Hadd.
    assert (Hrid : rid = fresh_oid (next_oid db)).
    { rewrite Hdb, (add_review_reviews_of db pid review current now Hpid)
        in Hrevs.
      apply app_inv_head in Hrevs. unfold stored_review in Hrevs.
      congruence. }
    split; [| split].
    + rewrite Hdb, Hrid. now apply add_review_reviews.
    + intros p Hp. rewrite <- find_one_product_with in *. now apply (Hkeep p).
    + intros p' Hp'. rewrite <- find_one_product_with in Hp'.
      destruct (Hrate p' Hp') as [Hr Hc].
      rewrite ratings_for_reviews_of, length_map, <- mean_rating_rounded.
      now split.
  - exact H2.
  - intros Hnone. apply H3.
    rewrite ratings_for_reviews_of in Hnone.
    now apply map_eq_nil in Hnone.
Qed.

End ReviewMean.

(** ** Reviews submitted one after the other *)

Section ReviewRuns.

Context {F : FloatOps} {E : External}.

Lemma sum_ratings_app (a b : list (Stored ReviewData)) :
  sum_ratings (a ++ b) = sum_ratings a + sum_ratings b.
Proof.
  unfold sum_ratings. induction a as [| x a IH]; simpl; [reflexivity |].
  rewrite IH. lia.
Qed.

Lemma stored_review_rating db review current now :
  r_rating (review_of (doc (stored_review db review current now)))
  = r_rating review.
Proof. destruct current; reflexivity. Qed.

Lemma add_reviews_counts pid subs :
  all_for pid subs ->
  forall db,
    List.length (reviews_of (add_reviews db pid subs) pid)
    = (List.length (reviews_of db pid) + List.length subs)%nat
    /\ sum_ratings (reviews_of (add_reviews db pid subs) pid)
       = sum_ratings (reviews_of db pid) + submitted_sum subs.
Proof.
  induction 1 as [| [[review current] now] rest Hpid Hrest IH]; intros db.
  - simpl. split; lia.
  - cbn [add_reviews]. cbn [fst] in Hpid.
    destruct (IH (snd (add_review db pid review current now))) as [Hl Hs].
    rewrite Hl, Hs.
    rewrite (add_review_reviews_of db pid review current now Hpid).
    rewrite length_app, sum_ratings_app. cbn [List.length].
    unfold sum_ratings at 2. cbn [fold_right].
    rewrite stored_review_rating.
    cbn [submitted_sum fold_right fst]. fold (submitted_sum rest).
    split; lia.
Qed.

Lemma add_review_rates db pid review current now o p :
  product_id review = pid ->
  ObjectId pid = Ok o ->
  find_one (products db) (by_id o) = Some p ->
  let db' := snd (add_review db pid review current now) in
  find_one (products db') (by_id o)
  = Some (set_rating (mean_rating (reviews_of db' pid))
                     (Z.of_nat (List.length (reviews_of db' pid))) p).
Proof.
  intros Hpid Ho Hp. cbv zeta.
  rewrite (add_review_snd db pid review current now Hpid).
  rewrite (update_rating_some _ pid o
             (reviews_of_grown db pid review current now Hpid) Ho).
  cbn [snd]. rewrite reviews_of_rated, find_one_rated.
  change (products (snd (insert_review db (persisted review current now))))
    with (products db).
  rewrite Hp. reflexivity.
Qed.

Lemma add_reviews_rates pid o subs :
  ObjectId pid = Ok o ->
  all_for pid subs -> subs <> [] ->
  forall db p,
    find_one (products db) (by_id o) = Some p ->
    exists p',
      find_one (products (add_reviews db pid subs)) (by_id o) = Some p'
      /\ rating (doc p')
         = mean_rating (reviews_of (add_reviews db pid subs) pid)
      /\ rating_count (doc p')
         = Z.of_nat (List.length (reviews_of (add_reviews db pid subs) pid)).
Proof.
  intros Ho Hall.
  induction Hall as [| [[review current] now] rest Hpid Hrest IH];
    intros Hne db p Hp; [congruence |].
  cbn [add_reviews]. cbn [fst] in Hpid.
  pose proof (add_review_rates db pid review current now o p Hpid Ho Hp)
    as Hstep.
  cbv zeta in Hstep.
  destruct rest as [| sub rest'].
  - cbn [add_reviews]. eexists. split; [exact Hstep |].
    split; reflexivity.
  - apply (IH ltac:(discriminate) _ _ Hstep).
Qed.

(** X12.  After a run of reviews submitted one after the other to
    [add_review] for one product id, a well-formed id that a product
    has, that product carries the count of all reviews of the id, those
    of before and those of the run, and as rating their mean rounded to
    two decimals; for a product without reviews before, the count is
    the length of the run and the rating the rounded mean of the
    ratings submitted. *)
Theorem add_reviews_rating db pid subs o p :
  ObjectId pid = Ok o ->
  all_for pid subs -> subs <> [] ->
  find_one (products db) (by_id o) = Some p ->
  exists p',
    find_one (products (add_reviews db pid subs)) (by_id o) = Some p'
    /\ rating_count (doc p')
       = Z.of_nat (List.length (reviews_of db pid) + List.length subs)
    /\ rating (doc p')
       = round2
           (truediv
              (sum_ratings (reviews_of db pid) + submitted_sum subs)
              (Z.of_nat (List.length (reviews_of db pid)
                         + List.length subs))).
Proof.
  intros Ho Hall Hne Hp.
  destruct (add_reviews_rates pid o subs Ho Hall Hne db p Hp)
    as (p' & Hp' & Hr & Hc).
  destruct (add_reviews_counts pid subs Hall db) as [Hl Hs].
  exists p'. split; [exact Hp' |].
  rewrite Hc, Hr. unfold mean_rating. rewrite Hl, Hs.
  split; reflexivity.
Qed.

End ReviewRuns.

(** ** Accounts *)

Section AccountFacts.

Context {F : FloatOps} {E : External} {C : Credentials}.

Lemma matches_email (a : string) (u : Stored User) :
  matches [Field "email" (CEq a)] u = String.eqb a (u_email (doc u)).
Proof. unfold matches. simpl. apply andb_true_r. Qed.

Lemma matches_user_id (o : oid) (u : Stored User) :
  matches [Field "_id" (CEqId o)] u = String.eqb o (_id u).
Proof. unfold matches. simpl. apply andb_true_r. Qed.

Lemma find_one_last {D : Type} {Doc : Document D} (coll : list D) q (d : D) :
  find_one coll q = None -> matches q d = true ->
  find_one (coll ++ [d]) q = Some d.
Proof.
  unfold find_one. intros Hnone Hd.
  induction coll as [| x rest IH]; cbn [app List.find] in *.
  - now rewrite Hd.
  - destruct (matches q x); [discriminate | now apply IH].
Qed.

Lemma find_one_first {D : Type} {Doc : Document D} (coll : list D) q (d x : D) :
  find_one coll q = Some x -> find_one (coll ++ [d]) q = Some x.
Proof.
  unfold find_one.
  induction coll as [| y rest IH]; cbn [app List.find]; [discriminate |].
  destruct (matches q y); [trivial | exact IH].
Qed.

Lemma register_taken s user salt u :
  find_one (users s) [Field "email" (CEq (u_email user))] = Some u ->
  register (Some s) user salt
  = (Raise (HTTPException 400 "Email already registered"), Some s).
Proof. intros H. unfold register. now rewrite H. Qed.

(** X1.  Once an address is registered it stays taken: after a
    successful [register], every further [register] with the same email,
    whatever the name and password, fails with status 400, "Email
    already registered", and leaves the database as it is. *)
Theorem register_twice db user salt out db' user2 salt2 :
  register db user salt = (Ok out, db') ->
  u_email user2 = u_email user ->
  register db' user2 salt2
  = (Raise (HTTPException 400 "Email already registered"), db')
  /\ kind_of (HTTPException 400 "Email already registered")
     = InvalidArgument.
Proof.
  intros Hreg Hmail. split; [| reflexivity].
  unfold register in Hreg.
  destruct db as [s |]; [| discriminate].
  destruct (find_one (users s) [Field "email" (CEq (u_email user))])
    as [u |] eqn:Hf; [discriminate |].
  assert (Hdb : db' = Some
            {| users := users s
                 ++ [ {| _id := fresh_oid (next_oid s);
                         doc := {| u_name := u_name user;
                                   u_email := u_email user;
                                   u_password_hash :=
                                     get_password_hash salt
                                                       (u_password_hash user);
                                   u_avatar_url := u_avatar_url user;
                                   u_is_active := u_is_active user |} |} ];
               categories := categories s; products := products s;
               reviews := reviews s; next_oid := S (next_oid s) |})
    by congruence.
  subst db'.
  eapply register_taken. cbn [users]. rewrite Hmail.
  apply find_one_last; [exact Hf |].
  rewrite matches_email. cbn [doc u_email]. apply String.eqb_refl.
Qed.

(** X2.  Registering, logging in and asking who one is come round: in a
    store whose next id is unused, after a successful [register] a
    [login] with the same email and the password given to [register]
    yields a bearer token, and, as long as that token decodes to its
    subject, [GET /api/me] with it answers the very identity [register]
    returned.  The stored user document holds the hash, not the
    password. *)
Theorem register_login_me s user salt out db' now :
  next_id_unused s ->
  register (Some s) user salt = (Ok out, Some db') ->
  jwt_decode (create_access_token (uo_id out) None now)
  = Some (Some (uo_id out)) ->
  exists t,
    login (Some db') (u_email user) (u_password_hash user) now = Ok t
    /\ token_type t = "bearer"
    /\ get_me db' (Some (access_token t)) = Ok out
    /\ exists u,
        find_one (users db') [Field "email" (CEq (u_email user))] = Some u
        /\ u_password_hash (doc u)
           = get_password_hash salt (u_password_hash user).
Proof.
  intros Hfresh Hreg Htok.
  unfold register in Hreg.
  destruct (find_one (users s) [Field "email" (CEq (u_email user))])
    as [u0 |] eqn:Hf; [discriminate |].
  set (new := {| _id := fresh_oid (next_oid s);
                 doc := {| u_name := u_name user; u_email := u_email user;
                           u_password_hash :=
                             get_password_hash salt (u_password_hash user);
                           u_avatar_url := u_avatar_url user;
                           u_is_active := u_is_active user |} |}) in *.
  assert (Hout : out = {| uo_id := fresh_oid (next_oid s);
                          uo_name := u_name user; uo_email := u_email user;
                          uo_avatar_url := u_avatar_url user |})
    by congruence.
  assert (Hdb : db' = {| users := users s ++ [new];
                         categories := categories s; products := products s;
                         reviews := reviews s; next_oid := S (next_oid s) |})
    by congruence.
  clear Hreg. subst out db'. cbn [uo_id] in Htok.
  assert (Hmail : find_one (users s ++ [new])
                           [Field "email" (CEq (u_email user))] = Some new).
  { apply find_one_last; [exact Hf |].
    rewrite matches_email. apply String.eqb_refl. }
  assert (Hid : find_one (users s ++ [new])
                         [Field "_id" (CEqId (fresh_oid (next_oid s)))]
                = Some new).
  { apply find_one_last.
    - unfold find_one.
      destruct (List.find _ (users s)) as [u |] eqn:Hu; [| reflexivity].
      apply find_some in Hu as [Hin Hm].
      rewrite matches_user_id in Hm. apply String.eqb_eq in Hm.
      exfalso. apply (Hfresh u Hin). now symmetry.
    - rewrite matches_user_id. apply String.eqb_refl. }
  eexists. split; [| split; [| split]].
  - unfold login. cbn [users]. rewrite Hmail.
    unfold verify_password, get_password_hash. cbn [doc u_password_hash new].
    rewrite pwd_verify_hash. reflexivity.
  - reflexivity.
  - cbn [access_token new _id].
    unfold get_me. cbn [oauth2_scheme bind].
    unfold get_current_user. rewrite Htok, ObjectId_fresh.
    cbn [bind users]. rewrite Hid. reflexivity.
  - exists new. split; [exact Hmail | reflexivity].
Qed.

(** X3.  On a configured store a [login] fails in the same way, status
    400 with "Incorrect email or password", when no stored user has the
    email and when the password does not verify against the hash of the
    first stored user with the email; when the library cannot read that
    hash, its error escapes, status 500.  A [login] that succeeds was
    given the email of a stored user and a password that verifies
    against that user's hash, and issues a bearer token for that user's
    id. *)
Theorem login_outcomes s username password now :
  match login (Some s) username password now with
  | Ok t =>
      exists u,
        find_one (users s) [Field "email" (CEq username)] = Some u
        /\ In u (users s)
        /\ u_email (doc u) = username
        /\ verify_password password (u_password_hash (doc u)) = Ok true
        /\ access_token t = create_access_token (_id u) None now
        /\ token_type t = "bearer"
  | Raise e =>
      (e = HTTPException 400 "Incorrect email or password"
       /\ ((forall u, In u (users s) -> u_email (doc u) <> username)
           \/ (exists u,
                  find_one (users s) [Field "email" (CEq username)] = Some u
                  /\ verify_password password (u_password_hash (doc u))
                     = Ok false)))
      \/ (e = ValueError /\ status_of e = 500
          /\ exists u,
              find_one (users s) [Field "email" (CEq username)] = Some u
              /\ verify_password password (u_password_hash (doc u))
                 = Raise ValueError)
  end.
Proof.
  unfold login.
  destruct (find_one (users s) [Field "email" (CEq username)])
    as [u |] eqn:Hf.
  - pose proof Hf as Hf'. apply find_some in Hf' as [Hin Hm].
    rewrite matches_email in Hm. apply String.eqb_eq in Hm.
    unfold verify_password.
    symmetry in Hm.
    destruct (pwd_verify password (u_password_hash (doc u))) as [[|] |]
      eqn:Hv; cbn [bind negb].
    + exists u. rewrite Hv. repeat split; auto.
    + left. split; [reflexivity |]. right. exists u. rewrite Hv. auto.
    + right. repeat split. exists u. rewrite Hv. auto.
  - left. split; [reflexivity |]. left. intros u Hin Hu.
    pose proof (find_none _ _ Hf u Hin) as Hm.
    rewrite matches_email, <- Hu, String.eqb_refl in Hm. discriminate.
Qed.

(** X4.  [get_current_user] refuses with status 401 a token that does
    not decode and a token without subject; for a token with subject
    [uid] it lets [InvalidId], status 500, escape when [uid] is not a
    well-formed object id, refuses with status 401 when [uid] is well
    formed and no stored user has that id, and otherwise returns the id,
    name, email and avatar of a stored user with that id. *)
Theorem get_current_user_outcomes db token :
  ((jwt_decode token = None \/ jwt_decode token = Some None) ->
   get_current_user db token = Raise credentials_exception)
  /\ (forall uid,
         jwt_decode token = Some (Some uid) ->
         ObjectId uid = Raise InvalidId ->
         get_current_user db token = Raise InvalidId)
  /\ (forall uid o,
         jwt_decode token = Some (Some uid) ->
         ObjectId uid = Ok o ->
         (forall u, In u (users db) -> _id u <> o) ->
         get_current_user db token = Raise credentials_exception)
  /\ (forall uid o,
         jwt_decode token = Some (Some uid) ->
         ObjectId uid = Ok o ->
         (exists u, In u (users db) /\ _id u = o) ->
         exists u,
           In u (users db) /\ _id u = o
           /\ get_current_user db token
              = Ok {| uo_id := o; uo_name := u_name (doc u);
                      uo_email := u_email (doc u);
                      uo_avatar_url := u_avatar_url (doc u) |})
  /\ status_of credentials_exception = 401
  /\ status_of InvalidId = 500.
Proof.
  unfold get_current_user.
  split; [| split; [| split; [| split; [| split; reflexivity]]]].
  - intros [-> | ->]; reflexivity.
  - intros uid -> ->. reflexivity.
  - intros uid o -> -> Hnone. cbn [bind].
    destruct (find_one (users db) [Field "_id" (CEqId o)]) as [u |] eqn:Hf;
      [| reflexivity].
    apply find_some in Hf as [Hin Hm].
    rewrite matches_user_id in Hm. apply String.eqb_eq in Hm.
    exfalso. apply (Hnone u Hin). now symmetry.
  - intros uid o -> -> (u0 & Hin0 & Hid0). cbn [bind].
    destruct (find_one (users db) [Field "_id" (CEqId o)]) as [u |] eqn:Hf.
    + apply find_some in Hf as [Hin Hm].
      rewrite matches_user_id in Hm. apply String.eqb_eq in Hm.
      exists u. split; [exact Hin |]. split; [now symmetry |].
      now rewrite <- Hm.
    + exfalso. pose proof (find_none _ _ Hf u0 Hin0) as Hm.
      rewrite matches_user_id, Hid0, String.eqb_refl in Hm. discriminate.
Qed.

End AccountFacts.

(** ** The handlers on the sample shop *)

Import Concrete.

Example shop_has_glass : hd_error (products shop) = Some glass.
Proof. reflexivity. Qed.

Example unconfigured_listing :
  list_products None None None None None 1 12 None
  = Raise (HTTPException 500 "Database not configured").
Proof. reflexivity. Qed.

Example negative_offset_listing :
  list_products (Some shop) None None None None 0 12 None = Raise ValueError.
Proof. reflexivity. Qed.

Example alice_is_current :
  get_current_user shop alice_token
  = Ok {| uo_id := fresh_oid 0; uo_name := "Alice";
          uo_email := "alice@example.com"; uo_avatar_url := None |}.
Proof. reflexivity. Qed.

Lemma list_products_window_witness :
  1 <= 2 /\ 1 <= 2
  /\ match list_products (Some shop) None None None None 2 2
                         (Some "price_desc") with
     | Ok r =>
         (List.length (items r) <= Z.to_nat 2)%nat
         /\ items r
            = map shape
                  (firstn (Z.to_nat 2)
                          (skipn (Z.to_nat ((2 - 1) * 2))
                                 (selection shop None None None None
                                            (Some "price_desc"))))
     | Raise _ => listing_accepts None None None 2 2 = false
     end.
Proof.
  split; [lia |]. split; [lia |].
  apply (list_products_window shop None None None None 2 2
                              (Some "price_desc")); lia.
Defined.

Lemma no_such_slug (p : Stored Product) :
  In p (products shop) -> slug (doc p) <> "no-such-slug".
Proof.
  intros [<- | [<- | [<- | []]]]; discriminate.
Defined.

Lemma get_product_spec_witness :
  (forall p, In p (products shop) -> slug (doc p) <> "no-such-slug")
  /\ (exists e, get_product shop "no-such-slug" = Raise e
                /\ status_of e = 404 /\ kind_of e = NotFound).
Proof.
  split; [exact no_such_slug |].
  exact (proj1 (get_product_spec shop "no-such-slug") no_such_slug).
Defined.

Lemma add_review_rating_witness :
  product_id four_stars = glass_id
  /\ ObjectId glass_id = Ok glass_id
  /\ exists rid db',
      add_review shop glass_id four_stars None 7 = (Ok rid, db')
      /\ exists p',
          product_with glass_id db' = Some p'
          /\ rating (doc p') = rounded_mean (ratings_for glass_id db')
          /\ rating_count (doc p')
             = Z.of_nat (List.length (ratings_for glass_id db')).
Proof.
  split; [reflexivity |]. split; [reflexivity |].
  destruct (proj1 (proj2 (add_review_rating shop glass_id four_stars None 7))
                  glass_id eq_refl eq_refl) as (rid & db' & Hadd).
  exists rid, db'. split; [exact Hadd |].
  destruct (proj1 (add_review_rating shop glass_id four_stars None 7)
                  rid db' Hadd) as (o & Ho & _ & Hkeep & Hrate).
  assert (Hoid : o = glass_id) by (apply Ok_inj; now rewrite <- Ho).
  subst o.
  destruct (Hkeep glass eq_refl) as (p' & Hp').
  exists p'. split; [exact Hp' |]. exact (Hrate p' Hp').
Defined.

Lemma post_review_needs_identity_witness :
  (b_user_id anonymous_body = None \/ b_user_name anonymous_body = None)
  /\ exists e,
      post_review shop (Some alice_token) glass_id anonymous_body 7
      = (Raise e, shop).
Proof.
  split; [now left |].
  apply (post_review_needs_identity shop (Some alice_token) glass_id
                                    anonymous_body 7).
  now left.
Defined.

Lemma post_review_rating_range_witness :
  b_rating (named_body 7) = Some 7 /\ (7 < 1 \/ 5 < 7)
  /\ exists e,
      post_review shop (Some alice_token) glass_id (named_body 7) 7
      = (Raise e, shop)
      /\ (forall token current,
             Some alice_token = Some token ->
             get_current_user shop token = Ok current ->
             e = RequestValidationError /\ kind_of e = InvalidArgument).
Proof.
  split; [reflexivity |]. split; [right; lia |].
  apply (post_review_rating_range shop (Some alice_token) glass_id
                                  (named_body 7) 7 7);
    [reflexivity | right; lia].
Defined.

Lemma post_review_identity_witness :
  exists current review,
    get_current_user shop alice_token = Ok current
    /\ validate_review (named_body 3) = Ok review
    /\ product_id review = glass_id
    /\ exists rid,
        reviews (snd (post_review shop (Some alice_token) glass_id
                                  (named_body 3) 7))
        = reviews shop
          ++ [ {| _id := rid;
                  doc := {| review_of :=
                              {| product_id := glass_id;
                                 user_id := fresh_oid 0;
                                 user_name := "Alice";
                                 r_rating := 3;
                                 comment := None |};
                            created_at := 7 |} |} ].
Proof.
  eexists. eexists.
  split; [reflexivity |]. split; [reflexivity |]. split; [reflexivity |].
  exact (proj2 (post_review_identity shop alice_token _ glass_id
                                     (named_body 3) 7 _
                                     eq_refl eq_refl eq_refl)).
Defined.

(** C2 as stated fails: without a bearer token the submission is refused,
    with or without an identity in the body; and with a token, a body
    whose [user_id] and [user_name] are [null] is refused. *)
Lemma anonymous_review_refused :
  fst (post_review shop None glass_id anonymous_body 7)
  = Raise (HTTPException 401 "Not authenticated")
  /\ fst (post_review shop None glass_id (named_body 5) 7)
     = Raise (HTTPException 401 "Not authenticated")
  /\ fst (post_review shop (Some alice_token) glass_id anonymous_body 7)
     = Raise RequestValidationError
  /\ reviews (snd (post_review shop None glass_id anonymous_body 7)) = [].
Proof. repeat split. Qed.

(** C5 as stated fails: the term [c.rd] is in no field of the glass card
    as a substring, and the listing selects the card; and an empty
    [category] is supplied and constrains nothing. *)
Lemma filter_substring_counterexample :
  (matches (build_filter (Some "c.rd") None None None) glass = true
   /\ ~ spec_matches (Some "c.rd") None None None glass)
  /\ (matches (build_filter None (Some "") None None) glass = true
      /\ ~ spec_matches None (Some "") None None glass).
Proof.
  split; (split; [reflexivity |]).
  - intros (H & _). specialize (H "c.rd" eq_refl). discriminate H.
  - intros (_ & H & _). specialize (H "" eq_refl). discriminate H.
Qed.

(** C6.  The failing input: a rating of 7 submitted without a bearer
    token is refused by the dependency [get_current_user] with status
    401, [Unauthorized], not [InvalidArgument]; the same body with a
    token that identifies a user is refused by the [Review] schema with
    the validation error; in both cases nothing is stored. *)
Lemma rating_out_of_range_unauthenticated :
  post_review shop None glass_id (named_body 7) 7
  = (Raise (HTTPException 401 "Not authenticated"), shop)
  /\ kind_of (HTTPException 401 "Not authenticated") = Unauthorized
  /\ kind_of (HTTPException 401 "Not authenticated") <> InvalidArgument
  /\ post_review shop (Some alice_token) glass_id (named_body 7) 7
     = (Raise RequestValidationError, shop)
  /\ kind_of RequestValidationError = InvalidArgument.
Proof.
  split; [reflexivity |]. split; [reflexivity |].
  split; [discriminate |]. split; reflexivity.
Qed.

(** ** The further handlers on the sample shop *)

Import Samples.

Lemma list_products_pages_adjoin_witness :
  1 <= 1 /\ 1 <= 2
  /\ listing_accepts None None None 1 2 = true
  /\ exists r1 r2,
      list_products (Some shop) None None None None 1 2 (Some "price_asc")
      = Ok r1
      /\ list_products (Some shop) None None None None (1 + 1) 2
                       (Some "price_asc") = Ok r2
      /\ items r1 ++ items r2
         = map shape
               (firstn (Z.to_nat (2 * 2))
                       (skipn (Z.to_nat ((1 - 1) * 2))
                              (selection shop None None None None
                                         (Some "price_asc")))).
Proof.
  split; [lia |]. split; [lia |]. split; [reflexivity |].
  apply (list_products_pages_adjoin shop None None None None 1 2
                                    (Some "price_asc"));
    [lia | lia | reflexivity].
Defined.

Lemma list_products_sort_rearranges_witness :
  1 <= 12
  /\ list_products (Some shop) None None None None 1 12 None
     = Ok (listing shop None None None None 1 12 None)
  /\ total (listing shop None None None None 1 12 None) <= 12
  /\ exists r,
      list_products (Some shop) None None None None 1 12 (Some "price_asc")
      = Ok r
      /\ Permutation (items r)
                     (items (listing shop None None None None 1 12 None))
      /\ total r = total (listing shop None None None None 1 12 None).
Proof.
  split; [lia |]. split; [reflexivity |].
  split; [vm_compute; discriminate |].
  apply (list_products_sort_rearranges shop None None None None 12
                                       (Some "price_asc"));
    [lia | reflexivity | vm_compute; discriminate].
Defined.

Lemma list_products_unknown_sort_witness :
  "title" <> "price_asc" /\ "title" <> "price_desc"
  /\ "title" <> "rating_desc"
  /\ list_products (Some shop) None None None None 1 12 (Some "title")
     = list_products (Some shop) None None None None 1 12 None.
Proof.
  split; [discriminate |]. split; [discriminate |]. split; [discriminate |].
  apply (list_products_unknown_sort (Some shop) None None None None 1 12
                                    "title"); discriminate.
Defined.

Lemma list_products_empty_range_witness :
  fle (150 : Q) (100 : Q) = false
  /\ match list_products (Some shop) None None (Some (150 : Q))
                         (Some (100 : Q)) 1 12 None with
     | Ok r => items r = [] /\ total r = 0
     | Raise _ =>
         listing_accepts None (Some (150 : Q)) (Some (100 : Q)) 1 12 = false
     end.
Proof.
  split; [reflexivity |].
  apply (list_products_empty_range shop None None (150 : Q) (100 : Q) 1 12
                                   None).
  reflexivity.
Defined.

Lemma list_products_negative_price_witness :
  (ge0 (Some (float_lit (-1))) = false \/ ge0 None = false)
  /\ list_products None None None (Some (float_lit (-1))) None 1 12 None
     = Raise RequestValidationError
  /\ status_of RequestValidationError = 422.
Proof.
  split; [now left |].
  apply (list_products_negative_price None None None (Some (float_lit (-1))) None
                                      1 12 None).
  now left.
Defined.

Lemma list_products_page_below_one_witness :
  0 < 1 /\ 1 <= 12
  /\ exists e,
      list_products (Some shop) None None None None 0 12 None = Raise e
      /\ (ge0 None = true -> ge0 None = true ->
          (forall t, @None string = Some t -> regex_valid t = true) ->
          e = ValueError /\ status_of e = 500).
Proof.
  split; [lia |]. split; [lia |].
  apply (list_products_page_below_one shop None None None None 0 12 None);
    lia.
Defined.

Lemma list_products_bad_pattern_witness :
  "(" <> "" /\ regex_valid "(" = false
  /\ ge0 None = true /\ ge0 None = true
  /\ list_products (Some shop) (Some "(") None None None 1 12 None
     = Raise OperationFailure
  /\ status_of OperationFailure = 500.
Proof.
  split; [discriminate |]. split; [reflexivity |].
  split; [reflexivity |]. split; [reflexivity |].
  apply (list_products_bad_pattern shop "(" None None None 1 12 None);
    [discriminate | reflexivity | reflexivity | reflexivity].
Defined.

Lemma add_review_then_get_reviews_witness :
  product_id four_stars = glass_id
  /\ exists l,
      get_reviews (snd (add_review shop glass_id four_stars None 7)) glass_id
      = Ok l
      /\ In (shape (stored_review shop four_stars None 7)) l
      /\ List.length l = S (List.length (reviews_of shop glass_id))
      /\ (forall rid,
             fst (add_review shop glass_id four_stars None 7) = Ok rid ->
             rid = id (shape (stored_review shop four_stars None 7))).
Proof.
  split; [reflexivity |].
  apply (add_review_then_get_reviews shop glass_id four_stars None 7).
  reflexivity.
Defined.

Lemma add_review_malformed_id_witness :
  product_id misfiled = "glass"
  /\ ObjectId "glass" = Raise InvalidId
  /\ exists db',
      add_review shop "glass" misfiled None 7 = (Raise InvalidId, db')
      /\ status_of InvalidId = 500
      /\ reviews db' = reviews shop ++ [stored_review shop misfiled None 7]
      /\ products db' = products shop.
Proof.
  split; [reflexivity |]. split; [reflexivity |].
  apply (add_review_malformed_id shop "glass" misfiled None 7 InvalidId);
    reflexivity.
Defined.

Lemma add_review_unknown_product_witness :
  product_id orphan = fresh_oid 99
  /\ ObjectId (fresh_oid 99) = Ok (fresh_oid 99)
  /\ find_one (products shop) (by_id (fresh_oid 99)) = None
  /\ exists rid db',
      add_review shop (fresh_oid 99) orphan None 7 = (Ok rid, db')
      /\ reviews db' = reviews shop ++ [stored_review shop orphan None 7]
      /\ products db' = products shop.
Proof.
  split; [reflexivity |]. split; [reflexivity |]. split; [reflexivity |].
  apply (add_review_unknown_product shop (fresh_oid 99) orphan None 7
                                    (fresh_oid 99)); reflexivity.
Defined.

Lemma post_review_mismatch_witness :
  exists current review,
    get_current_user shop alice_token = Ok current
    /\ validate_review (named_body 3) = Ok review
    /\ product_id review <> fresh_oid 5
    /\ post_review shop (Some alice_token) (fresh_oid 5) (named_body 3) 7
       = (Raise (HTTPException 400 "Mismatched product id"), shop)
    /\ kind_of (HTTPException 400 "Mismatched product id") = InvalidArgument.
Proof.
  eexists. eexists.
  split; [reflexivity |]. split; [reflexivity |].
  split; [discriminate |].
  eapply (post_review_mismatch shop alice_token _ (fresh_oid 5)
                               (named_body 3) 7 _);
    [reflexivity | reflexivity | discriminate].
Defined.

Lemma reviewed_shop_in_range : Forall rating_in_range (reviews reviewed_shop).
Proof.
  constructor; [| constructor]. unfold rating_in_range. simpl. lia.
Defined.

Lemma post_review_keeps_ratings_witness :
  Forall rating_in_range (reviews reviewed_shop)
  /\ Forall rating_in_range
            (reviews (snd (post_review reviewed_shop (Some alice_token)
                                       glass_id (named_body 5) 8))).
Proof.
  split; [exact reviewed_shop_in_range |].
  apply (post_review_keeps_ratings reviewed_shop (Some alice_token) glass_id
                                   (named_body 5) 8).
  exact reviewed_shop_in_range.
Defined.

Lemma two_reviews_for_glass : all_for glass_id two_reviews.
Proof. repeat constructor. Defined.

Lemma add_reviews_rating_witness :
  ObjectId glass_id = Ok glass_id
  /\ all_for glass_id two_reviews
  /\ two_reviews <> []
  /\ find_one (products shop) (by_id glass_id) = Some glass
  /\ exists p',
      find_one (products (add_reviews shop glass_id two_reviews))
               (by_id glass_id) = Some p'
      /\ rating_count (doc p')
         = Z.of_nat (List.length (reviews_of shop glass_id)
                     + List.length two_reviews)
      /\ rating (doc p')
         = round2
             (truediv
                (sum_ratings (reviews_of shop glass_id)
                 + submitted_sum two_reviews)
                (Z.of_nat (List.length (reviews_of shop glass_id)
                           + List.length two_reviews))).
Proof.
  split; [reflexivity |]. split; [exact two_reviews_for_glass |].
  split; [discriminate |]. split; [reflexivity |].
  apply (add_reviews_rating shop glass_id two_reviews glass_id glass);
    [reflexivity | exact two_reviews_for_glass | discriminate | reflexivity].
Defined.

Example two_reviews_mean :
  option_map (fun p => (rating (doc p), rating_count (doc p)))
             (find_one (products (add_reviews shop glass_id two_reviews))
                       (by_id glass_id))
  = Some ((9 # 2)%Q, 2).
Proof. reflexivity. Qed.

Lemma register_twice_witness :
  register (Some shop) bob "salt" = (Ok bob_out, shop_with_bob)
  /\ u_email robert = u_email bob
  /\ register shop_with_bob robert "pepper"
     = (Raise (HTTPException 400 "Email already registered"), shop_with_bob)
  /\ kind_of (HTTPException 400 "Email already registered") = InvalidArgument.
Proof.
  split; [reflexivity |]. split; [reflexivity |].
  apply (register_twice (Some shop) bob "salt" bob_out shop_with_bob);
    reflexivity.
Defined.

Lemma shop_next_id_unused : next_id_unused shop.
Proof.
  intros u [<- | []]. discriminate.
Defined.

Lemma register_login_me_witness :
  next_id_unused shop
  /\ exists db',
      register (Some shop) bob "salt" = (Ok bob_out, Some db')
      /\ jwt_decode (create_access_token (uo_id bob_out) None 0)
         = Some (Some (uo_id bob_out))
      /\ exists t,
          login (Some db') (u_email bob) (u_password_hash bob) 0 = Ok t
          /\ token_type t = "bearer"
          /\ get_me db' (Some (access_token t)) = Ok bob_out
          /\ exists u,
              find_one (users db') [Field "email" (CEq (u_email bob))]
              = Some u
              /\ u_password_hash (doc u)
                 = get_password_hash "salt" (u_password_hash bob).
Proof.
  split; [exact shop_next_id_unused |].
  eexists. split; [reflexivity |]. split; [reflexivity |].
  apply (register_login_me shop bob "salt" bob_out _ 0 shop_next_id_unused);
    reflexivity.
Defined.

Lemma list_products_page_size_witness :
  1 <= 2 /\ 1 <= 2
  /\ match list_products (Some shop) None None None None 2 2 None with
     | Ok r =>
         Z.of_nat (List.length (items r))
         = Z.max 0 (Z.min 2 (total r - (2 - 1) * 2))
     | Raise _ => listing_accepts None None None 2 2 = false
     end.
Proof.
  split; [lia |]. split; [lia |].
  apply (list_products_page_size shop None None None None 2 2 None); lia.
Defined.

Example ObjectId_skips_white_space :
  ObjectId spaced_id = Ok "0000000000000000"
  /\ ObjectId "00000000000000000000000g" = Raise InvalidId
  /\ ObjectId "0 0000000000000000000000" = Raise InvalidId
  /\ ObjectId "ABCDEF0123456789abcdef01" = Ok "abcdef0123456789abcdef01".
Proof. repeat split. Qed.

Example add_review_spaced_id :
  fst (add_review shop spaced_id spaced_review None 7) = Ok (fresh_oid 7).
Proof. reflexivity. Qed.

Example login_unreadable_hash :
  login (Some legacy_shop) "dan@example.com" "plaintext" 0 = Raise ValueError
  /\ login (Some shop) "alice@example.com" "wrong" 0
     = Raise (HTTPException 400 "Incorrect email or password")
  /\ login (Some shop) "nobody@example.com" "wrong" 0
     = Raise (HTTPException 400 "Incorrect email or password").
Proof. repeat split. Qed.

Lemma get_current_user_outcomes_witness :
  jwt_decode "sub:glass" = Some (Some "glass")
  /\ ObjectId "glass" = Raise InvalidId
  /\ get_current_user shop "sub:glass" = Raise InvalidId
  /\ jwt_decode ("sub:" ++ spaced_id)%string = Some (Some spaced_id)
  /\ ObjectId spaced_id = Ok "0000000000000000"
  /\ (forall u, In u (users shop) -> _id u <> "0000000000000000")
  /\ get_current_user shop ("sub:" ++ spaced_id)%string
     = Raise credentials_exception.
Proof.
  assert (Hnone : forall u, In u (users shop) -> _id u <> "0000000000000000")
    by (intros u [<- | []]; discriminate).
  split; [reflexivity |]. split; [reflexivity |].
  split.
  { exact (proj1 (proj2 (get_current_user_outcomes shop "sub:glass"))
                 "glass" eq_refl eq_refl). }
  split; [reflexivity |]. split; [reflexivity |]. split; [exact Hnone |].
  exact (proj1 (proj2 (proj2 (get_current_user_outcomes
                                shop ("sub:" ++ spaced_id)%string)))
               spaced_id "0000000000000000" eq_refl eq_refl Hnone).
Defined.
